(** * valorant-backend: the Riot API service

    A shallow embedding of [RiotAPIService] (the request/cache layer,
    the statistics fold [calculatePlayerStats] and the profile assembler
    [getPlayerProfile]) together with the properties its specification
    states about it. *)

From Stdlib Require Import ZArith String Ascii List Bool Lia.
From Stdlib Require Import Floats.SpecFloat.
From stdpp Require Import base tactics option list strings pretty gmap fin_maps.

Local Open Scope string_scope.
Local Open Scope Z_scope.

(** ** JavaScript numbers

    A JavaScript number is an IEEE-754 binary64 value.  The counters of
    the statistics object only ever hold sums of upstream integers, which
    are exact below 2^53; they are kept as [Z].  The ratios are computed
    with binary64 division and multiplication, so the operands are
    converted at that point and the Standard Library's executable
    specification of binary64 is used. *)

Module JS.

Definition prec : Z := 53.
Definition emax : Z := 1024.

Definition number := spec_float.

(** The number denoted by an integer literal or an exact integer counter
    (round to nearest, ties to even). *)
Definition of_Z (z : Z) : number := binary_normalize prec emax z 0 false.

Definition div (x y : number) : number := SFdiv prec emax x y.
Definition mul (x y : number) : number := SFmul prec emax x y.

(** [m * 2^e >= 10^21], the threshold above which [toFixed] falls back
    to [Number::toString]. *)
Definition ge_1e21 (m : positive) (e : Z) : bool :=
  if 0 <=? e then 10 ^ 21 <=? Z.shiftl (Z.pos m) e
  else 10 ^ 21 * 2 ^ (- e) <=? Z.pos m.

(** The integer [n] for which [n / 10^f - m * 2^e] is as close to zero as
    possible; of two such [n] the larger one. *)
Definition nearest_scaled (f : nat) (m : positive) (e : Z) : Z :=
  if 0 <=? e then Z.shiftl (Z.pos m) e * 10 ^ Z.of_nat f
  else (2 * Z.pos m * 10 ^ Z.of_nat f + 2 ^ (- e)) / 2 ^ (1 - e).

Fixpoint zeros (k : nat) : string :=
  match k with O => "" | S k' => String "0" (zeros k') end.

(** Steps 8-10 of Number.prototype.toFixed: the decimal digits of [n],
    left-padded with zeros to [f + 1] digits, with a point before the
    last [f] of them. *)
Definition fixed_digits (f : nat) (n : Z) : string :=
  let m := pretty (Z.to_N n) in
  match f with
  | O => m
  | S _ =>
      let k := String.length m in
      let m := if (k <=? f)%nat then zeros (f + 1 - k) +:+ m else m in
      let k := String.length m in
      substring 0 (k - f) m +:+ "." +:+ substring (k - f) f m
  end.

Section ToFixed.
(** [Number::toString] on finite values of magnitude at least 10^21
    (exponent notation), which [toFixed] falls back to. *)
Variable toStringLarge : number -> string.

(** Number.prototype.toFixed(f). *)
Definition toFixed (f : nat) (x : number) : string :=
  match x with
  | S754_nan => "NaN"
  | S754_infinity false => "Infinity"
  | S754_infinity true => "-Infinity"
  | S754_zero _ => fixed_digits f 0
  | S754_finite s m e =>
      (if s then "-" else "") +:+
      (if ge_1e21 m e then toStringLarge (S754_finite false m e)
       else fixed_digits f (nearest_scaled f m e))
  end.
End ToFixed.

(** Math.round: the integer nearest to [x], ties towards +infinity. *)
Definition round (x : number) : number :=
  match x with
  | S754_finite s m e =>
      if 0 <=? e then x
      else
        let v := if s then - Z.pos m else Z.pos m in
        let r := (2 * v + 2 ^ (- e)) / 2 ^ (1 - e) in
        binary_normalize prec emax r 0 s
  | _ => x
  end.

(** The values a statistics field can hold: a number or a string. *)
Inductive value :=
| Num (x : number)
| Str (s : string).

Definition num (z : Z) : value := Num (of_Z z).

Definition is_number (v : value) : bool :=
  match v with Num _ => true | Str _ => false end.

End JS.

(** ** Upstream match records

    The shape [calculatePlayerStats] reads: [match.players.all_players],
    [match.teams[name]], [match.metadata], and for a player [puuid],
    [stats], [team], [damage_made] and [character].  Fields the code
    guards with a truthiness test or [?.] are optional. *)

Record PlayerStats := {
  ps_kills : Z;
  ps_deaths : Z;
  ps_assists : Z;
  ps_score : Z
}.

Record DamageMade := {
  dm_headshots : option Z;
  dm_bodyshots : option Z;
  dm_legshots : option Z
}.

Record Player := {
  puuid : string;
  stats : PlayerStats;
  team : string;
  damage_made : option DamageMade;
  character : string
}.

Record Team := {
  has_won : bool;
  rounds_won : Z;
  rounds_lost : Z
}.

Record Metadata := {
  md_map : string;
  md_matchid : string;
  md_mode : string;
  md_game_start : Z
}.

Record Match := {
  all_players : list Player;
  teams : gmap string Team;
  metadata : Metadata
}.

(** ** The statistics object *)

Record AgentStats := {
  ag_matches : Z;
  ag_wins : Z;
  ag_kills : Z;
  ag_deaths : Z;
  ag_assists : Z;
  ag_kd : JS.value;
  ag_winRate : JS.value
}.

(** A map entry while the matches are folded ... *)
Record MapCounters := {
  mc_matches : Z;
  mc_wins : Z;
  mc_kills : Z;
  mc_deaths : Z;
  mc_roundsWon : Z;
  mc_roundsLost : Z
}.

(** ... and after the derived fields have been added to it. *)
Record MapStats := {
  mp_counters : MapCounters;
  mp_winRate : JS.value;
  mp_kd : JS.value;
  mp_roundWinRate : JS.value
}.

Record MatchSummary := {
  ms_matchId : string;
  ms_map : string;
  ms_mode : string;
  ms_date : Z;              (* milliseconds since the epoch *)
  ms_kills : Z;
  ms_deaths : Z;
  ms_assists : Z;
  ms_score : Z;
  ms_agent : string;
  ms_won : bool;
  ms_roundsWon : Z;
  ms_roundsLost : Z
}.

(** The fields of [stats] that the [forEach] callback updates. *)
Record Counters := {
  c_wins : Z;
  c_losses : Z;
  c_draws : Z;
  c_totalKills : Z;
  c_totalDeaths : Z;
  c_totalAssists : Z;
  c_totalScore : Z;
  c_totalRounds : Z;
  c_roundsWon : Z;
  c_roundsLost : Z;
  c_totalHeadshots : Z;
  c_totalBodyshots : Z;
  c_totalLegshots : Z;
  c_agents : gmap string AgentStats;
  c_maps : gmap string MapCounters;
  c_recentMatches : list MatchSummary
}.

(** The object [calculatePlayerStats] returns. *)
Record Stats := {
  totalMatches : Z;
  wins : Z;
  losses : Z;
  draws : Z;
  totalKills : Z;
  totalDeaths : Z;
  totalAssists : Z;
  totalScore : Z;
  totalRounds : Z;
  roundsWon : Z;
  roundsLost : Z;
  headshotPercentage : JS.value;
  totalHeadshots : Z;
  totalBodyshots : Z;
  totalLegshots : Z;
  agents : gmap string AgentStats;
  weapons : gmap string unit;
  maps : gmap string MapStats;
  recentMatches : list MatchSummary;
  kd : JS.value;
  winRate : JS.value;
  averageKills : JS.value;
  averageDeaths : JS.value;
  averageAssists : JS.value;
  averageScore : JS.value
}.

(** ** String helpers *)

(** [String.prototype.toLowerCase] on the ASCII letters; team names are
    "Red" and "Blue". *)
Definition lower_ascii (c : ascii) : ascii :=
  let n := N_of_ascii c in
  if ((65 <=? n) && (n <=? 90))%N then ascii_of_N (n + 32) else c.

Fixpoint toLowerCase (s : string) : string :=
  match s with
  | EmptyString => EmptyString
  | String c s' => String (lower_ascii c) (toLowerCase s')
  end.

(** Whether a character occurs in a string. *)
Fixpoint has_char (c : ascii) (s : string) : bool :=
  match s with
  | EmptyString => false
  | String c' s' => bool_decide (c' = c) || has_char c s'
  end.

(** ** calculatePlayerStats *)

(** The outcome recorded for one match. *)
Inductive Outcome := Win | Draw | Loss.

Global Instance Outcome_eq_dec : EqDecision Outcome.
Proof. solve_decision. Defined.

(** [teams.red?.rounds_won === teams.blue?.rounds_won]: an absent team
    contributes [undefined]. *)
Definition rounds_equal (ts : gmap string Team) : bool :=
  bool_decide (rounds_won <$> ts !! "red" = rounds_won <$> ts !! "blue").

(** The [if (team.has_won) ... else if ... else ...] chain. *)
Definition classify (ts : gmap string Team) (t : Team) : Outcome :=
  if has_won t then Win
  else if rounds_equal ts then Draw
  else Loss.

Definition newAgent : AgentStats :=
  {| ag_matches := 0; ag_wins := 0; ag_kills := 0; ag_deaths := 0;
     ag_assists := 0; ag_kd := JS.num 0; ag_winRate := JS.num 0 |}.

Definition newMap : MapCounters :=
  {| mc_matches := 0; mc_wins := 0; mc_kills := 0; mc_deaths := 0;
     mc_roundsWon := 0; mc_roundsLost := 0 |}.

Definition b2z (b : bool) : Z := if b then 1 else 0.

(** [x || 0] on an optional count. *)
Definition or0 (x : option Z) : Z := default 0 x.

(** [matches.find(p => p.puuid === puuid)]. *)
Definition find_player (m : Match) (id : string) : option Player :=
  List.find (fun p => bool_decide (puuid p = id)) (all_players m).

(** The subject's team entry, [match.teams[player.team.toLowerCase()]]. *)
Definition team_of (m : Match) (p : Player) : option Team :=
  teams m !! toLowerCase (team p).

(** One run of the [forEach] callback. *)
Definition fold_match (id : string) (c : Counters) (m : Match) : Counters :=
  match find_player m id with
  | None => c
  | Some player =>
      let st := stats player in
      let tm := team_of m player in
      let outcome := classify (teams m) <$> tm in
      let won := from_option has_won false tm in
      let rw := from_option rounds_won 0 tm in
      let rl := from_option rounds_lost 0 tm in
      let dmg := damage_made player in
      let agentName := character player in
      let ag := default newAgent (c_agents c !! agentName) in
      let mapName := md_map (metadata m) in
      let mp := default newMap (c_maps c !! mapName) in
      {| c_wins := c_wins c + b2z (bool_decide (outcome = Some Win));
         c_losses := c_losses c + b2z (bool_decide (outcome = Some Loss));
         c_draws := c_draws c + b2z (bool_decide (outcome = Some Draw));
         c_totalKills := c_totalKills c + ps_kills st;
         c_totalDeaths := c_totalDeaths c + ps_deaths st;
         c_totalAssists := c_totalAssists c + ps_assists st;
         c_totalScore := c_totalScore c + ps_score st;
         c_totalRounds := c_totalRounds c + from_option (fun t => rounds_won t + rounds_lost t) 0 tm;
         c_roundsWon := c_roundsWon c + rw;
         c_roundsLost := c_roundsLost c + rl;
         c_totalHeadshots := c_totalHeadshots c + from_option (fun d => or0 (dm_headshots d)) 0 dmg;
         c_totalBodyshots := c_totalBodyshots c + from_option (fun d => or0 (dm_bodyshots d)) 0 dmg;
         c_totalLegshots := c_totalLegshots c + from_option (fun d => or0 (dm_legshots d)) 0 dmg;
         c_agents :=
           <[agentName :=
               {| ag_matches := ag_matches ag + 1;
                  ag_wins := ag_wins ag + b2z won;
                  ag_kills := ag_kills ag + ps_kills st;
                  ag_deaths := ag_deaths ag + ps_deaths st;
                  ag_assists := ag_assists ag + ps_assists st;
                  ag_kd := ag_kd ag;
                  ag_winRate := ag_winRate ag |}]> (c_agents c);
         c_maps :=
           <[mapName :=
               {| mc_matches := mc_matches mp + 1;
                  mc_wins := mc_wins mp + b2z won;
                  mc_kills := mc_kills mp + ps_kills st;
                  mc_deaths := mc_deaths mp + ps_deaths st;
                  mc_roundsWon := mc_roundsWon mp + rw;
                  mc_roundsLost := mc_roundsLost mp + rl |}]> (c_maps c);
         c_recentMatches :=
           c_recentMatches c ++
           [ {| ms_matchId := md_matchid (metadata m);
                ms_map := mapName;
                ms_mode := md_mode (metadata m);
                ms_date := md_game_start (metadata m) * 1000;
                ms_kills := ps_kills st;
                ms_deaths := ps_deaths st;
                ms_assists := ps_assists st;
                ms_score := ps_score st;
                ms_agent := agentName;
                ms_won := won;
                ms_roundsWon := rw;
                ms_roundsLost := rl |} ] |}
  end.

Definition initial : Counters :=
  {| c_wins := 0; c_losses := 0; c_draws := 0;
     c_totalKills := 0; c_totalDeaths := 0; c_totalAssists := 0;
     c_totalScore := 0; c_totalRounds := 0; c_roundsWon := 0; c_roundsLost := 0;
     c_totalHeadshots := 0; c_totalBodyshots := 0; c_totalLegshots := 0;
     c_agents := ∅; c_maps := ∅; c_recentMatches := [] |}.

(** [matches.forEach(...)]. *)
Definition fold_matches (id : string) (ms : list Match) : Counters :=
  fold_left (fold_match id) ms initial.

Section Derived.
Variable toStringLarge : JS.number -> string.

(** [d > 0 ? (k / d).toFixed(2) : k]. *)
Definition kd_of (k d : Z) : JS.value :=
  if 0 <? d then JS.Str (JS.toFixed toStringLarge 2 (JS.div (JS.of_Z k) (JS.of_Z d)))
  else JS.num k.

(** [t > 0 ? ((a / t) * 100).toFixed(1) : 0]. *)
Definition percent_of (a t : Z) : JS.value :=
  if 0 <? t then
    JS.Str (JS.toFixed toStringLarge 1
              (JS.mul (JS.div (JS.of_Z a) (JS.of_Z t)) (JS.of_Z 100)))
  else JS.num 0.

(** [n > 0 ? (a / n).toFixed(1) : 0]. *)
Definition average_of (a n : Z) : JS.value :=
  if 0 <? n then JS.Str (JS.toFixed toStringLarge 1 (JS.div (JS.of_Z a) (JS.of_Z n)))
  else JS.num 0.

(** [n > 0 ? Math.round(a / n) : 0]. *)
Definition rounded_average_of (a n : Z) : JS.value :=
  if 0 <? n then JS.Num (JS.round (JS.div (JS.of_Z a) (JS.of_Z n)))
  else JS.num 0.

Definition derive_agent (a : AgentStats) : AgentStats :=
  {| ag_matches := ag_matches a; ag_wins := ag_wins a; ag_kills := ag_kills a;
     ag_deaths := ag_deaths a; ag_assists := ag_assists a;
     ag_kd := kd_of (ag_kills a) (ag_deaths a);
     ag_winRate := percent_of (ag_wins a) (ag_matches a) |}.

Definition derive_map (m : MapCounters) : MapStats :=
  {| mp_counters := m;
     mp_winRate := percent_of (mc_wins m) (mc_matches m);
     mp_kd := kd_of (mc_kills m) (mc_deaths m);
     mp_roundWinRate :=
       percent_of (mc_roundsWon m) (mc_roundsWon m + mc_roundsLost m) |}.

Definition calculatePlayerStats (matches : list Match) (id : string) : Stats :=
  let n := Z.of_nat (length matches) in
  let c := fold_matches id matches in
  let totalShots := c_totalHeadshots c + c_totalBodyshots c + c_totalLegshots c in
  {| totalMatches := n;
     wins := c_wins c;
     losses := c_losses c;
     draws := c_draws c;
     totalKills := c_totalKills c;
     totalDeaths := c_totalDeaths c;
     totalAssists := c_totalAssists c;
     totalScore := c_totalScore c;
     totalRounds := c_totalRounds c;
     roundsWon := c_roundsWon c;
     roundsLost := c_roundsLost c;
     headshotPercentage := percent_of (c_totalHeadshots c) totalShots;
     totalHeadshots := c_totalHeadshots c;
     totalBodyshots := c_totalBodyshots c;
     totalLegshots := c_totalLegshots c;
     agents := derive_agent <$> c_agents c;
     weapons := ∅;
     maps := derive_map <$> c_maps c;
     recentMatches := c_recentMatches c;
     kd := kd_of (c_totalKills c) (c_totalDeaths c);
     winRate := percent_of (c_wins c) n;
     averageKills := average_of (c_totalKills c) n;
     averageDeaths := average_of (c_totalDeaths c) n;
     averageAssists := average_of (c_totalAssists c) n;
     averageScore := rounded_average_of (c_totalScore c) n |}.
End Derived.

(** ** Upstream replies, errors and the world the service runs in *)

Record Account := {
  acc_puuid : string;
  acc_gameName : string;
  acc_tagLine : string
}.

Record HistoryEntry := { matchId : string }.

(** A response body.  [DNull] is a [null] body; a match list may lack its
    [history] field. *)
Inductive Data :=
| DNull
| DAccount (a : Account)
| DMatchlist (history : option (list HistoryEntry))
| DMatch (m : Match).

(** What a rejected promise carries: the error axios raises for a failed
    request, or the TypeError of a property read on [null]/[undefined]. *)
Inductive Error :=
| RequestFailed (status : Z) (message : string)
| TypeError.

Inductive Result (A : Type) :=
| Ok (a : A)
| Err (e : Error).
Arguments Ok {A} a.
Arguments Err {A} e.

(** The collaborators the service is linked against: the HTTP client
    ([axios.get(url, {headers: {'X-Riot-Token': key}})], whose answer may
    depend on the time of the request) and the runtime's rendering of
    large numbers. *)
Class Host := {
  http_get : string -> string -> N -> Result Data;
  toStringLarge : JS.number -> string
}.

(** The module-level [cache] (a NodeCache with [stdTTL: 300]: every entry
    carries the time in milliseconds at which it expires), the clock, and
    the URLs requested from the network so far, oldest first.  A call of
    the service reads the clock once; time passes between calls
    ([at_time]). *)
Record World := {
  cache : gmap string (Data * N);
  now : N;
  requests : list string
}.

Definition stdTTL : N := 300.

(** [cache.get(key)]: an entry is gone once its expiry time is in the past. *)
Definition cache_get (key : string) (w : World) : option Data :=
  match cache w !! key with
  | Some (v, expires) => if (expires <? now w)%N then None else Some v
  | None => None
  end.

(** [cache.set(key, value)]. *)
Definition cache_set (key : string) (v : Data) (w : World) : World :=
  {| cache := <[key := (v, (now w + stdTTL * 1000)%N)]> (cache w);
     now := now w;
     requests := requests w |}.

Definition record_request (url : string) (w : World) : World :=
  {| cache := cache w; now := now w; requests := requests w ++ [url] |}.

(** Time passing between two calls of the service. *)
Definition at_time (t : N) (w : World) : World :=
  {| cache := cache w; now := t; requests := requests w |}.

(** Truthiness of a response body, and of a cache key. *)
Definition truthy (d : Data) : bool :=
  match d with DNull => false | _ => true end.

(** [m !== null]. *)
Definition not_null (d : Data) : bool :=
  match d with DNull => false | _ => true end.

Definition truthy_key (k : option string) : option string :=
  match k with
  | Some EmptyString => None
  | _ => k
  end.

(** *** Promises

    An async method is a computation on the world that settles with a
    value or an error; an error does not undo the effects made so far. *)
Definition M (A : Type) : Type := World -> Result A * World.

Definition ret {A} (a : A) : M A := fun w => (Ok a, w).
Definition throw {A} (e : Error) : M A := fun w => (Err e, w).
Definition lift {A} (r : Result A) : M A := fun w => (r, w).

Definition bind {A B} (m : M A) (k : A -> M B) : M B := fun w =>
  match m w with
  | (Ok a, w') => k a w'
  | (Err e, w') => (Err e, w')
  end.

(** [try { m } catch (error) { h(error) }] and [p.catch(h)]. *)
Definition catch {A} (m : M A) (h : Error -> M A) : M A := fun w =>
  match m w with
  | (Ok a, w') => (Ok a, w')
  | (Err e, w') => h e w'
  end.

Notation "'await' x <- m ; k" := (bind m (fun x => k))
  (at level 10, x name, m at level 100, k at level 200).

(** Every promise of the list runs to its end, in order of issue. *)
Fixpoint settle_all {A} (ps : list (M A)) (w : World) : list (Result A) * World :=
  match ps with
  | [] => ([], w)
  | p :: ps' =>
      let '(r, w1) := p w in
      let '(rs, w2) := settle_all ps' w1 in
      (r :: rs, w2)
  end.

(** The values of the list when all are fulfilled, else an error of the
    list: the one of the first rejected promise, in order of issue. *)
Fixpoint collect {A} (rs : list (Result A)) : Result (list A) :=
  match rs with
  | [] => Ok []
  | Ok a :: rs' =>
      match collect rs' with
      | Ok l => Ok (a :: l)
      | Err e => Err e
      end
  | Err e :: _ => Err e
  end.

(** [Promise.all]: the promises are already running when it is called;
    it rejects as soon as one of them does, and does not cancel the
    others. *)
Definition promise_all {A} (ps : list (M A)) : M (list A) := fun w =>
  let '(rs, w') := settle_all ps w in (collect rs, w').

(** *** Template literals and URLs *)

(** [`${x}`] for a property that may be undefined. *)
Definition interpolate (x : option string) : string :=
  default "undefined" x.

Definition hex_digit (n : N) : ascii :=
  if (n <? 10)%N then ascii_of_N (48 + n) else ascii_of_N (55 + n).

Definition unreserved (c : ascii) : bool :=
  let n := N_of_ascii c in
  ((48 <=? n) && (n <=? 57) || (65 <=? n) && (n <=? 90) || (97 <=? n) && (n <=? 122))%N
  || bool_decide (c ∈ ["-"; "_"; "."; "!"; "~"; "*"; "'"; "("; ")"]%char).

(** [encodeURIComponent] on a string held as its UTF-8 bytes. *)
Fixpoint encodeURIComponent (s : string) : string :=
  match s with
  | EmptyString => EmptyString
  | String c s' =>
      if unreserved c then String c (encodeURIComponent s')
      else
        let n := N_of_ascii c in
        String "%" (String (hex_digit (n / 16)) (String (hex_digit (n mod 16))
          (encodeURIComponent s')))
  end.

(** [this.regions] and [this.platformUrls]. *)
Definition regions : gmap string string :=
  <["europe" := "https://europe.api.riotgames.com"]>
  (<["americas" := "https://americas.api.riotgames.com"]>
  (<["asia" := "https://asia.api.riotgames.com"]>
  (<["ap" := "https://ap.api.riotgames.com"]> ∅))).

Definition platformUrls : gmap string string :=
  <["eu" := "https://eu.api.riotgames.com"]>
  (<["na" := "https://na.api.riotgames.com"]>
  (<["ap" := "https://ap.api.riotgames.com"]>
  (<["kr" := "https://kr.api.riotgames.com"]> ∅))).

(** *** Reading a response body *)

(** [account.puuid], [account.gameName], [account.tagLine]: the fields
    of an account object, a TypeError on [null].  [Data] records of a
    body only what the code reads at the endpoint it comes from, so what
    these reads give on the body of another endpoint is outside the
    model; the branch for such a body stands for no behaviour of the
    code, and every statement about [getPlayerProfile] assumes that the
    account lookup fails or returns an account object or [null]. *)
Definition as_account (d : Data) : Result Account :=
  match d with
  | DAccount a => Ok a
  | _ => Err TypeError
  end.

(** [matchHistory.history.map(...)]: a TypeError unless the body is an
    object with a [history] array. *)
Definition history_of (d : Data) : Result (list HistoryEntry) :=
  match d with
  | DMatchlist (Some h) => Ok h
  | _ => Err TypeError
  end.

(** [match.players.all_players]: a TypeError unless the body is a match. *)
Definition as_match (d : Data) : Result Match :=
  match d with
  | DMatch m => Ok m
  | _ => Err TypeError
  end.

Fixpoint as_matches (ds : list Data) : Result (list Match) :=
  match ds with
  | [] => Ok []
  | d :: ds' =>
      match as_match d with
      | Ok m =>
          match as_matches ds' with
          | Ok ms => Ok (m :: ms)
          | Err e => Err e
          end
      | Err e => Err e
      end
  end.

(** [matchHistory && matchHistory.history && matchHistory.history.length > 0]. *)
Definition nonempty_history (d : Data) : option (list HistoryEntry) :=
  match d with
  | DMatchlist (Some (e :: h)) => Some (e :: h)
  | _ => None
  end.

(** ** RiotAPIService *)

Record RiotAPIService := { apiKey : string }.

(** The statistics of a profile: computed, or the literal all-zero object
    of [getPlayerProfile]. *)
Record ZeroStats := {
  z_totalMatches : Z;
  z_wins : Z;
  z_losses : Z;
  z_draws : Z;
  z_totalKills : Z;
  z_totalDeaths : Z;
  z_totalAssists : Z;
  z_kd : JS.value;
  z_winRate : JS.value;
  z_headshotPercentage : JS.value;
  z_agents : gmap string AgentStats;
  z_maps : gmap string MapStats;
  z_recentMatches : list MatchSummary
}.

Inductive Statistics :=
| Computed (s : Stats)
| Literal (z : ZeroStats).

Definition statistics_totalMatches (s : Statistics) : Z :=
  match s with
  | Computed s => totalMatches s
  | Literal z => z_totalMatches z
  end.

(** A rank sample; the official API has none to give. *)
Record Rank := {
  currentTier : Z;
  rankedRating : Z
}.

Record Profile := {
  account : Account;
  rank : option Rank;
  statistics : Statistics;
  lastUpdated : N
}.

Definition zeroStats : ZeroStats :=
  {| z_totalMatches := 0; z_wins := 0; z_losses := 0; z_draws := 0;
     z_totalKills := 0; z_totalDeaths := 0; z_totalAssists := 0;
     z_kd := JS.num 0; z_winRate := JS.num 0; z_headshotPercentage := JS.num 0;
     z_agents := ∅; z_maps := ∅; z_recentMatches := [] |}.

Section Service.
Context `{Host}.
Variable this : RiotAPIService.

(** [makeRequest(url, cacheKey)], with the cache looked up in the world
    [issued] in which the call was made and the response handled in the
    current one.  The two differ only inside a [Promise.all], where
    every request is issued before any response arrives. *)
Definition makeRequestAt (issued : World) (url : string)
    (cacheKey : option string) : M Data := fun w =>
  let cached :=
    match truthy_key cacheKey with
    | Some key =>
        match cache_get key issued with
        | Some d => if truthy d then Some d else None
        | None => None
        end
    | None => None
    end in
  match cached with
  | Some d => (Ok d, w)
  | None =>
      let w := record_request url w in
      match http_get url (apiKey this) (now w) with
      | Ok data =>
          (Ok data,
           match truthy_key cacheKey with
           | Some key => cache_set key data w
           | None => w
           end)
      | Err error => (Err error, w)
      end
  end.

Definition makeRequest (url : string) (cacheKey : option string) : M Data :=
  fun w => makeRequestAt w url cacheKey w.

Definition getAccountByRiotId (gameName tagLine region : string) : M Data :=
  let url := interpolate (regions !! region)
               +:+ "/riot/account/v1/accounts/by-riot-id/"
               +:+ encodeURIComponent gameName +:+ "/"
               +:+ encodeURIComponent tagLine in
  makeRequest url (Some ("account:" +:+ gameName +:+ ":" +:+ tagLine)).

Definition getAccountByPuuid (id region : string) : M Data :=
  let url := interpolate (regions !! region)
               +:+ "/riot/account/v1/accounts/by-puuid/" +:+ id in
  makeRequest url (Some ("account:puuid:" +:+ id)).

Definition getPlayerMMR (id region : string) : M (option Rank) := ret None.

Definition matchHistoryUrl (id region : string) : string :=
  interpolate (regions !! region) +:+ "/val/match/v1/matchlists/by-puuid/" +:+ id.

Definition matchHistoryKey (id : string) (count : Z) : string :=
  "matches:" +:+ id +:+ ":" +:+ pretty count.

Definition getMatchHistory (id region : string) (count : Z) : M Data :=
  makeRequest (matchHistoryUrl id region) (Some (matchHistoryKey id count)).

Definition matchDetailsUrl (mid region : string) : string :=
  interpolate (regions !! region) +:+ "/val/match/v1/matches/" +:+ mid.

Definition getMatchDetailsAt (issued : World) (mid region : string) : M Data :=
  makeRequestAt issued (matchDetailsUrl mid region) (Some ("match:" +:+ mid)).

Definition getMatchDetails (mid region : string) : M Data :=
  fun w => getMatchDetailsAt w mid region w.

(** [history.map(match => this.getMatchDetails(match.matchId, region))]:
    one detail fetch per entry, all issued in the same world. *)
Definition detail_fetches (issued : World) (region : string)
    (history : list HistoryEntry) : list (M Data) :=
  List.map (fun entry => getMatchDetailsAt issued (matchId entry) region) history.

Definition getRecentMatchesWithDetails (id region : string) (count : Z)
    : M (list Data) :=
  catch
    (await matchHistory <- getMatchHistory id region count ;
     await history <- lift (history_of matchHistory) ;
     fun w => promise_all (detail_fetches w region history) w)
    (fun error => throw error).

(** [this.calculatePlayerStats(matches, puuid)] as a call made on the
    service: a synchronous method that reads neither [this] nor the
    cache nor the clock. *)
Definition calculatePlayerStats_call (matches : list Match) (id : string)
    : M Stats :=
  ret (calculatePlayerStats toStringLarge matches id).

Definition getPlayerProfile (gameName tagLine region platformRegion : string)
    : M Profile :=
  catch
    (await account <- getAccountByRiotId gameName tagLine region ;
     await matches <-
       catch
         (await a <- lift (as_account account) ;
          await matchHistory <- getMatchHistory (acc_puuid a) region 5 ;
          match nonempty_history matchHistory with
          | Some history =>
              let matchIds := List.map matchId (take 5 history) in
              fun w =>
                (await matches <-
                   promise_all
                     (List.map
                        (fun mid =>
                           catch (getMatchDetailsAt w mid region)
                                 (fun e => ret DNull))
                        matchIds) ;
                 ret (List.filter not_null matches)) w
          | None => ret []
          end)
         (fun error => ret []) ;
     await stats <-
       match matches with
       | _ :: _ =>
           await a <- lift (as_account account) ;
           await ms <- lift (as_matches matches) ;
           await s <- calculatePlayerStats_call ms (acc_puuid a) ;
           ret (Computed s)
       | [] => ret (Literal zeroStats)
       end ;
     await a <- lift (as_account account) ;
     fun w =>
       (Ok {| account := {| acc_puuid := acc_puuid a;
                            acc_gameName := acc_gameName a;
                            acc_tagLine := acc_tagLine a |};
              rank := None;
              statistics := stats;
              lastUpdated := now w |}, w))
    (fun error => throw error).
End Service.

(** ** Reading the fold

    What the callback records for one match, as a function of the match
    alone: nothing when the subject is not among the players or has no
    team entry, else the result of the [has_won] chain. *)
Definition outcome_of (id : string) (m : Match) : option Outcome :=
  match find_player m id with
  | Some player => classify (teams m) <$> team_of m player
  | None => None
  end.

Definition has_outcome (id : string) (o : Outcome) (m : Match) : bool :=
  bool_decide (outcome_of id m = Some o).

Definition classified (id : string) (m : Match) : bool :=
  bool_decide (is_Some (outcome_of id m)).

(** How many matches of a sequence satisfy a test. *)
Definition count_matches (P : Match -> bool) (ms : list Match) : Z :=
  Z.of_nat (length (List.filter P ms)).

(** ** Sample data *)

Module Sample.

Definition runtime : JS.number -> string := fun _ => "".

Definition player (id tm agent : string) (k d : Z) : Player :=
  {| puuid := id;
     stats := {| ps_kills := k; ps_deaths := d; ps_assists := 3; ps_score := 2500 |};
     team := tm;
     damage_made :=
       Some {| dm_headshots := Some 5; dm_bodyshots := Some 4; dm_legshots := None |};
     character := agent |}.

Definition side (won : bool) (rw rl : Z) : Team :=
  {| has_won := won; rounds_won := rw; rounds_lost := rl |}.

Definition meta (mid mp : string) : Metadata :=
  {| md_map := mp; md_matchid := mid; md_mode := "Competitive";
     md_game_start := 1700000000 |}.

(** The subject "a" plays Jett on the red side and wins 13-5. *)
Definition won_match : Match :=
  {| all_players := [player "b" "Blue" "Sage" 4 9; player "a" "Red" "Jett" 20 10];
     teams := <["red" := side true 13 5]> (<["blue" := side false 5 13]> ∅);
     metadata := meta "m1" "Ascent" |}.

(** The subject's team is flagged as the winner although both sides won
    twelve rounds. *)
Definition flagged_tie : Match :=
  {| all_players := [player "a" "Red" "Jett" 7 0];
     teams := <["red" := side true 12 12]> (<["blue" := side false 12 12]> ∅);
     metadata := meta "m2" "Bind" |}.

Definition tied_match : Match :=
  {| all_players := [player "a" "Blue" "Omen" 7 0];
     teams := <["red" := side false 12 12]> (<["blue" := side false 12 12]> ∅);
     metadata := meta "m3" "Bind" |}.

Definition lost_match : Match :=
  {| all_players := [player "a" "Blue" "Omen" 3 11];
     teams := <["red" := side true 13 4]> (<["blue" := side false 4 13]> ∅);
     metadata := meta "m4" "Haven" |}.

(** The subject does not appear among the players. *)
Definition foreign_match : Match :=
  {| all_players := [player "b" "Red" "Sage" 9 9];
     teams := <["red" := side true 13 5]> (<["blue" := side false 5 13]> ∅);
     metadata := meta "m5" "Split" |}.

(** The subject's team has no entry in [teams]. *)
Definition teamless_match : Match :=
  {| all_players := [player "a" "Green" "Jett" 6 6];
     teams := <["red" := side true 13 5]> (<["blue" := side false 5 13]> ∅);
     metadata := meta "m6" "Split" |}.

(** A format whose teams are neither "red" nor "blue". *)
Definition other_teams_match : Match :=
  {| all_players := [player "a" "Green" "Jett" 6 6];
     teams := <["green" := side false 3 7]> (<["yellow" := side true 7 3]> ∅);
     metadata := meta "m7" "Range" |}.

(** An upstream that knows three players.  Player "a" has three matches
    in Europe, the second of which cannot be fetched, and one in Asia;
    player "c" has three matches that can all be fetched; player "n" has
    an empty history; the history of player "g" cannot be fetched. *)
Definition europe : string := "https://europe.api.riotgames.com".
Definition asia : string := "https://asia.api.riotgames.com".

Definition entries (ids : list string) : Data :=
  DMatchlist (Some (List.map (fun i => {| matchId := i |}) ids)).

Definition replies : list (string * Data) :=
  [ (europe +:+ "/riot/account/v1/accounts/by-riot-id/Ann%20A/EUW",
     DAccount {| acc_puuid := "a"; acc_gameName := "Ann A"; acc_tagLine := "EUW" |});
    (europe +:+ "/riot/account/v1/accounts/by-riot-id/Gus/EUW",
     DAccount {| acc_puuid := "g"; acc_gameName := "Gus"; acc_tagLine := "EUW" |});
    (europe +:+ "/riot/account/v1/accounts/by-riot-id/Nic/EUW",
     DAccount {| acc_puuid := "n"; acc_gameName := "Nic"; acc_tagLine := "EUW" |});
    (europe +:+ "/val/match/v1/matchlists/by-puuid/a", entries ["m1"; "m2"; "m4"]);
    (asia +:+ "/val/match/v1/matchlists/by-puuid/a", entries ["m3"]);
    (europe +:+ "/val/match/v1/matchlists/by-puuid/c", entries ["m1"; "m3"; "m4"]);
    (europe +:+ "/val/match/v1/matchlists/by-puuid/n", entries []);
    (europe +:+ "/val/match/v1/matches/m1", DMatch won_match);
    (europe +:+ "/val/match/v1/matches/m3", DMatch tied_match);
    (europe +:+ "/val/match/v1/matches/m4", DMatch lost_match) ].

Fixpoint reply (url : string) (table : list (string * Data)) : Result Data :=
  match table with
  | [] => Err (RequestFailed 404 "Data not found")
  | (u, d) :: table' => if bool_decide (u = url) then Ok d else reply url table'
  end.

Definition host : Host :=
  {| http_get := fun url key t => reply url replies;
     toStringLarge := runtime |}.

Definition service : RiotAPIService := {| apiKey := "RGAPI-sample" |}.

(** A fresh process: nothing cached, nothing requested yet. *)
Definition start : World := {| cache := ∅; now := 1000; requests := [] |}.

End Sample.

(** ** The remaining read operations *)

Section Reads.
Context `{Host}.
Variable this : RiotAPIService.

(** The template literal of [getAccountByRiotId]. *)
Definition accountByRiotIdUrl (gameName tagLine region : string) : string :=
  interpolate (regions !! region)
    +:+ "/riot/account/v1/accounts/by-riot-id/"
    +:+ encodeURIComponent gameName +:+ "/"
    +:+ encodeURIComponent tagLine.

Definition accountByRiotIdKey (gameName tagLine : string) : string :=
  "account:" +:+ gameName +:+ ":" +:+ tagLine.

(** [getContent(region)]; the body is whatever the upstream sends. *)
Definition getContent (region : string) : M Data :=
  makeRequest this
    (interpolate (platformUrls !! region) +:+ "/val/content/v1/contents")
    (Some "content").

Definition competitiveUrl (id region queue : string) (start end_ : Z) : string :=
  interpolate (regions !! region) +:+ "/val/match/v1/matchlists/by-puuid/" +:+ id
    +:+ "?queue=" +:+ queue +:+ "&start=" +:+ pretty start
    +:+ "&end=" +:+ pretty end_.

Definition competitiveKey (id : string) (start end_ : Z) : string :=
  "competitive:" +:+ id +:+ ":" +:+ pretty start +:+ ":" +:+ pretty end_.

(** [getCompetitiveUpdates(puuid, region, queue, start, end)]. *)
Definition getCompetitiveUpdates (id region queue : string) (start end_ : Z)
    : M Data :=
  makeRequest this (competitiveUrl id region queue start end_)
    (Some (competitiveKey id start end_)).

(** The detail fetches of [getPlayerProfile]: each with its own
    [.catch(e => null)]. *)
Definition guarded_fetches (issued : World) (region : string)
    (matchIds : list string) : list (M Data) :=
  List.map
    (fun mid => catch (getMatchDetailsAt this issued mid region) (fun e => ret DNull))
    matchIds.
End Reads.

(** ** Reading the fan-out *)

(** Whether the cache answers a request under a key. *)
Definition served (key : string) (w : World) : bool :=
  match cache_get key w with
  | Some d => truthy d
  | None => false
  end.

(** The detail requests that go to the network: those of the entries
    the cache does not answer when the fan-out starts. *)
Definition detail_requests (issued : World) (region : string)
    (mids : list string) : list string :=
  List.map (fun mid => matchDetailsUrl mid region)
    (List.filter (fun mid => negb (served ("match:" +:+ mid) issued)) mids).

(** What [.catch(e => null)] makes of a settled fetch. *)
Definition body_or_null (r : Result Data) : Data :=
  match r with
  | Ok d => d
  | Err _ => DNull
  end.

(** The bodies that survive [matches.filter(m => m !== null)]. *)
Definition fetched_bodies (rs : list (Result Data)) : list Data :=
  List.filter not_null (List.map body_or_null rs).

(** ** Reading the fold, continued *)

(** The sum of a per-match quantity. *)
Definition sum_over (f : Match -> Z) (ms : list Match) : Z :=
  fold_right (fun m acc => f m + acc) 0 ms.

(** A quantity read off the subject's record; 0 when the subject is not
    among the players. *)
Definition subject_value (id : string) (f : Match -> Player -> Z) (m : Match) : Z :=
  from_option (f m) 0 (find_player m id).

Definition found (id : string) (m : Match) : bool :=
  bool_decide (is_Some (find_player m id)).

Definition kills_in (m : Match) (p : Player) : Z := ps_kills (stats p).
Definition deaths_in (m : Match) (p : Player) : Z := ps_deaths (stats p).
Definition assists_in (m : Match) (p : Player) : Z := ps_assists (stats p).
Definition score_in (m : Match) (p : Player) : Z := ps_score (stats p).
Definition rounds_won_in (m : Match) (p : Player) : Z :=
  from_option rounds_won 0 (team_of m p).
Definition rounds_lost_in (m : Match) (p : Player) : Z :=
  from_option rounds_lost 0 (team_of m p).
Definition headshots_in (m : Match) (p : Player) : Z :=
  from_option (fun d => or0 (dm_headshots d)) 0 (damage_made p).
Definition bodyshots_in (m : Match) (p : Player) : Z :=
  from_option (fun d => or0 (dm_bodyshots d)) 0 (damage_made p).
Definition legshots_in (m : Match) (p : Player) : Z :=
  from_option (fun d => or0 (dm_legshots d)) 0 (damage_made p).
Definition won_in (m : Match) (p : Player) : Z :=
  b2z (from_option has_won false (team_of m p)).

(** The same quantity, restricted to the matches the subject played with
    a given agent, or on a given map. *)
Definition as_agent (name : string) (f : Match -> Player -> Z)
    (m : Match) (p : Player) : Z :=
  if bool_decide (character p = name) then f m p else 0.

Definition on_map (name : string) (f : Match -> Player -> Z)
    (m : Match) (p : Player) : Z :=
  if bool_decide (md_map (metadata m) = name) then f m p else 0.

Definition one (m : Match) (p : Player) : Z := 1.

(** The sum of a counter over the entries of a breakdown. *)
Definition breakdown_sum {A} (f : A -> Z) (m : gmap string A) : Z :=
  map_fold (fun _ a acc => f a + acc) 0 m.

(** The entry of [recentMatches] a match gives rise to. *)
Definition summary_of (id : string) (m : Match) : option MatchSummary :=
  match find_player m id with
  | None => None
  | Some p =>
      let tm := team_of m p in
      Some {| ms_matchId := md_matchid (metadata m);
              ms_map := md_map (metadata m);
              ms_mode := md_mode (metadata m);
              ms_date := md_game_start (metadata m) * 1000;
              ms_kills := ps_kills (stats p);
              ms_deaths := ps_deaths (stats p);
              ms_assists := ps_assists (stats p);
              ms_score := ps_score (stats p);
              ms_agent := character p;
              ms_won := from_option has_won false tm;
              ms_roundsWon := from_option rounds_won 0 tm;
              ms_roundsLost := from_option rounds_lost 0 tm |}
  end.

(** Whether a string has an upper-case ASCII letter. *)
Fixpoint has_upper (s : string) : bool :=
  match s with
  | EmptyString => false
  | String c s' =>
      let n := N_of_ascii c in
      ((65 <=? n) && (n <=? 90))%N || has_upper s'
  end.

(** The value of a hexadecimal digit, for reading [%XX] back. *)
Definition hex_value (c : ascii) : N :=
  let n := N_of_ascii c in
  if (n <? 58)%N then (n - 48)%N else (n - 55)%N.

(** ** More sample data *)

Module Fixture.

(** A match whose teams are keyed "Red" and "Blue", capitals included. *)
Definition capitalised_match : Match :=
  {| all_players := [Sample.player "a" "Red" "Jett" 9 4];
     teams := <["Red" := Sample.side true 13 2]>
              (<["Blue" := Sample.side false 2 13]> ∅);
     metadata := Sample.meta "m8" "Lotus" |}.

Definition account (id name tag : string) : Data :=
  DAccount {| acc_puuid := id; acc_gameName := name; acc_tagLine := tag |}.

(** The upstream of [Sample], and besides: a player named "puuid", two
    players whose names and tags differ only in where the colon stands,
    a player "l" with seven matches, a match list with a null body, the
    game content of two platform regions and two competitive queues. *)
Definition replies : list (string * Data) :=
  (Sample.replies ++
  [ (Sample.europe +:+ "/riot/account/v1/accounts/by-riot-id/puuid/a",
     account "p" "puuid" "a");
    (Sample.europe +:+ "/riot/account/v1/accounts/by-puuid/a",
     account "a" "Ann A" "EUW");
    (Sample.europe +:+ "/riot/account/v1/accounts/by-riot-id/x%3Ay/z",
     account "xy" "x:y" "z");
    (Sample.europe +:+ "/riot/account/v1/accounts/by-riot-id/x/y%3Az",
     account "yz" "x" "y:z");
    (Sample.europe +:+ "/riot/account/v1/accounts/by-riot-id/Lou/EUW",
     account "l" "Lou" "EUW");
    (Sample.europe +:+ "/val/match/v1/matchlists/by-puuid/l",
     Sample.entries ["m1"; "m3"; "m4"; "m1"; "m2"; "m4"; "m3"]);
    (Sample.europe +:+ "/val/match/v1/matchlists/by-puuid/z", DNull);
    ("https://eu.api.riotgames.com/val/content/v1/contents", Sample.entries ["eu"]);
    ("https://na.api.riotgames.com/val/content/v1/contents", Sample.entries ["na"]);
    (Sample.europe +:+
       "/val/match/v1/matchlists/by-puuid/a?queue=competitive&start=0&end=20",
     Sample.entries ["m1"]);
    (Sample.europe +:+
       "/val/match/v1/matchlists/by-puuid/a?queue=unrated&start=0&end=20",
     Sample.entries ["m3"]) ])%list.

Definition host : Host :=
  {| http_get := fun url key t => Sample.reply url replies;
     toStringLarge := Sample.runtime |}.

End Fixture.

(** * Properties *)

(** Evaluate the comparisons of two known outcomes in a hypothesis. *)
Ltac eval_outcomes H :=
  repeat match type of H with
  | context [b2z (@bool_decide (@eq Outcome ?a ?b) ?d)] =>
      let v := eval vm_compute in (b2z (@bool_decide (a = b) d)) in
      change (b2z (@bool_decide (a = b) d)) with v in H
  end.


(** ** The outcome counters *)

Lemma count_matches_cons P m ms :
  count_matches P (m :: ms) = b2z (P m) + count_matches P ms.
Proof.
  unfold count_matches. cbn [List.filter].
  destruct (P m); cbn [length b2z]; lia.
Qed.

Lemma count_matches_bound P ms :
  0 <= count_matches P ms <= Z.of_nat (length ms).
Proof.
  induction ms as [|m ms IH].
  - unfold count_matches; cbn; lia.
  - rewrite count_matches_cons. cbn [length]. destruct (P m); cbn [b2z]; lia.
Qed.

(** An outcome is recorded in exactly one of the three counters. *)
Lemma outcome_split id m :
  b2z (has_outcome id Win m) + b2z (has_outcome id Loss m)
    + b2z (has_outcome id Draw m) = b2z (classified id m).
Proof.
  unfold has_outcome, classified.
  destruct (outcome_of id m) as [[]|]; reflexivity.
Qed.

Lemma fold_match_counters id c m :
  c_wins (fold_match id c m) = c_wins c + b2z (has_outcome id Win m) /\
  c_losses (fold_match id c m) = c_losses c + b2z (has_outcome id Loss m) /\
  c_draws (fold_match id c m) = c_draws c + b2z (has_outcome id Draw m).
Proof.
  unfold fold_match, has_outcome, outcome_of.
  destruct (find_player m id) as [player|]; cbn.
  - repeat split; reflexivity.
  - repeat split; symmetry; apply Z.add_0_r.
Qed.

Lemma fold_left_counters id ms : forall c,
  c_wins (fold_left (fold_match id) ms c)
    = c_wins c + count_matches (has_outcome id Win) ms /\
  c_losses (fold_left (fold_match id) ms c)
    = c_losses c + count_matches (has_outcome id Loss) ms /\
  c_draws (fold_left (fold_match id) ms c)
    = c_draws c + count_matches (has_outcome id Draw) ms.
Proof.
  induction ms as [|m ms IH]; intros c.
  - unfold count_matches; cbn; lia.
  - cbn [fold_left]. rewrite !count_matches_cons.
    destruct (IH (fold_match id c m)) as (Hw & Hl & Hd).
    destruct (fold_match_counters id c m) as (Hw' & Hl' & Hd').
    rewrite Hw, Hl, Hd, Hw', Hl', Hd'. lia.
Qed.

Lemma count_matches_split id ms :
  count_matches (has_outcome id Win) ms + count_matches (has_outcome id Loss) ms
    + count_matches (has_outcome id Draw) ms = count_matches (classified id) ms.
Proof.
  induction ms as [|m ms IH].
  - reflexivity.
  - rewrite !count_matches_cons. pose proof (outcome_split id m). lia.
Qed.

(** The three counters of the snapshot count the matches by outcome. *)
Lemma calculatePlayerStats_counts tsl ms id :
  wins (calculatePlayerStats tsl ms id) = count_matches (has_outcome id Win) ms /\
  losses (calculatePlayerStats tsl ms id) = count_matches (has_outcome id Loss) ms /\
  draws (calculatePlayerStats tsl ms id) = count_matches (has_outcome id Draw) ms.
Proof.
  unfold calculatePlayerStats, fold_matches; cbn.
  destruct (fold_left_counters id ms initial) as (Hw & Hl & Hd).
  rewrite Hw, Hl, Hd. cbn. repeat split; lia.
Qed.

Lemma count_matches_app P l1 l2 :
  count_matches P (l1 ++ l2) = count_matches P l1 + count_matches P l2.
Proof.
  unfold count_matches. rewrite List.filter_app, length_app. lia.
Qed.

Lemma count_matches_insert P l1 m l2 :
  count_matches P (l1 ++ m :: l2) = count_matches P (l1 ++ l2) + b2z (P m).
Proof. rewrite !count_matches_app, count_matches_cons. lia. Qed.

Lemma count_matches_all P ms :
  (count_matches P ms =? Z.of_nat (length ms)) = forallb P ms.
Proof.
  induction ms as [|m ms IH]; [reflexivity|].
  rewrite count_matches_cons. cbn [forallb length].
  pose proof (count_matches_bound P ms).
  destruct (P m); cbn [b2z andb].
  - rewrite <- IH. destruct (Z.eqb_spec (count_matches P ms) (Z.of_nat (length ms)));
      [apply Z.eqb_eq | apply Z.eqb_neq]; lia.
  - apply Z.eqb_neq. lia.
Qed.

(** The effect on the counters of one more match anywhere in the sequence. *)
Lemma calculatePlayerStats_insert tsl id l1 m l2 :
  let before := calculatePlayerStats tsl (l1 ++ l2) id in
  let after := calculatePlayerStats tsl (l1 ++ m :: l2) id in
  wins after = wins before + b2z (has_outcome id Win m) /\
  losses after = losses before + b2z (has_outcome id Loss m) /\
  draws after = draws before + b2z (has_outcome id Draw m).
Proof.
  intros before after.
  destruct (calculatePlayerStats_counts tsl (l1 ++ l2) id) as (Hw & Hl & Hd).
  destruct (calculatePlayerStats_counts tsl (l1 ++ m :: l2) id) as (Hw' & Hl' & Hd').
  subst before after. rewrite Hw, Hl, Hd, Hw', Hl', Hd'.
  rewrite !count_matches_insert. auto.
Qed.

Lemma outcome_of_found id m player t :
  find_player m id = Some player ->
  team_of m player = Some t ->
  outcome_of id m = Some (classify (teams m) t).
Proof. intros Hp Ht. unfold outcome_of. rewrite Hp, Ht. reflexivity. Qed.

Lemma has_outcome_found id o m player t :
  find_player m id = Some player ->
  team_of m player = Some t ->
  has_outcome id o m = bool_decide (classify (teams m) t = o).
Proof.
  intros Hp Ht. unfold has_outcome. rewrite (outcome_of_found _ _ _ _ Hp Ht).
  apply bool_decide_ext. split; congruence.
Qed.

(** A match without the subject, or without the subject's team entry,
    leaves the three counters as they are. *)
Lemma unclassified_match_ignored tsl id l1 m l2 :
  outcome_of id m = None ->
  let before := calculatePlayerStats tsl (l1 ++ l2) id in
  let after := calculatePlayerStats tsl (l1 ++ m :: l2) id in
  wins after = wins before /\ losses after = losses before /\
  draws after = draws before /\ totalMatches after = totalMatches before + 1.
Proof.
  intros Hn before after.
  destruct (calculatePlayerStats_insert tsl id l1 m l2) as (Hw & Hl & Hd).
  fold before after in Hw, Hl, Hd.
  unfold has_outcome in Hw, Hl, Hd. rewrite Hn in Hw, Hl, Hd.
  change (b2z (bool_decide (None = Some Win))) with 0 in Hw.
  change (b2z (bool_decide (None = Some Loss))) with 0 in Hl.
  change (b2z (bool_decide (None = Some Draw))) with 0 in Hd.
  assert (Hlen : totalMatches after = totalMatches before + 1).
  { subst before after. unfold calculatePlayerStats; cbn [totalMatches].
    rewrite !length_app. cbn [length]. lia. }
  lia.
Qed.

(** C2, as amended: the three outcome counters add up to the number of
    matches in which the subject is found and has a team entry.
    [totalMatches] is the length of the whole sequence, so the sum is at
    most [totalMatches], and equal to it exactly when no match of the
    sequence lacks the subject or the subject's team entry. *)
Theorem outcome_counters_sum tsl ms id :
  let s := calculatePlayerStats tsl ms id in
  wins s + losses s + draws s = count_matches (classified id) ms /\
  totalMatches s = Z.of_nat (length ms) /\
  wins s + losses s + draws s <= totalMatches s /\
  (wins s + losses s + draws s =? totalMatches s) = forallb (classified id) ms.
Proof.
  intros s.
  destruct (calculatePlayerStats_counts tsl ms id) as (Hw & Hl & Hd).
  fold s in Hw, Hl, Hd.
  assert (Hsum : wins s + losses s + draws s = count_matches (classified id) ms).
  { rewrite Hw, Hl, Hd. apply count_matches_split. }
  assert (Hlen : totalMatches s = Z.of_nat (length ms)) by reflexivity.
  repeat split; try assumption.
  - rewrite Hsum, Hlen. apply count_matches_bound.
  - rewrite Hsum, Hlen. apply count_matches_all.
Qed.

(** C2, as stated, fails: of three matches, one without the subject and
    one without the subject's team entry, only one reaches the outcome
    counters. *)
Lemma outcome_counters_sum_counterexample :
  let s := calculatePlayerStats Sample.runtime
             [Sample.foreign_match; Sample.teamless_match; Sample.won_match] "a" in
  totalMatches s = 3 /\ wins s + losses s + draws s = 1 /\
  wins s + losses s + draws s <> totalMatches s.
Proof. vm_compute. repeat split; congruence. Qed.

(** C6, as amended: wherever a match stands in the sequence, if the
    subject is found in it and has a team entry, it adds one to exactly
    one counter: to [wins] when the entry's [has_won] is set, whatever
    the rounds say; to [draws] when it is not set and [rounds_won] of the
    entry named "red" equals [rounds_won] of the entry named "blue"
    (undefined when the entry is absent); to [losses] otherwise.  A match
    in which the subject is not found, or has no team entry, adds to
    none of the three. *)
Theorem outcome_precedence tsl id l1 m l2 :
  let before := calculatePlayerStats tsl (l1 ++ l2) id in
  let after := calculatePlayerStats tsl (l1 ++ m :: l2) id in
  (forall player t,
     find_player m id = Some player ->
     team_of m player = Some t ->
     (has_won t = true ->
        wins after = wins before + 1 /\
        draws after = draws before /\ losses after = losses before) /\
     (has_won t = false ->
      rounds_won <$> teams m !! "red" = rounds_won <$> teams m !! "blue" ->
        draws after = draws before + 1 /\
        wins after = wins before /\ losses after = losses before) /\
     (has_won t = false ->
      rounds_won <$> teams m !! "red" <> rounds_won <$> teams m !! "blue" ->
        losses after = losses before + 1 /\
        wins after = wins before /\ draws after = draws before)) /\
  (find_player m id = None \/
   (exists player, find_player m id = Some player /\ team_of m player = None) ->
   wins after = wins before /\
   draws after = draws before /\ losses after = losses before).
Proof.
  intros before after. split.
  - intros player t Hp Ht.
    destruct (calculatePlayerStats_insert tsl id l1 m l2) as (Hw & Hl & Hd).
    fold before after in Hw, Hl, Hd.
    rewrite (has_outcome_found _ Win _ _ _ Hp Ht) in Hw.
    rewrite (has_outcome_found _ Loss _ _ _ Hp Ht) in Hl.
    rewrite (has_outcome_found _ Draw _ _ _ Hp Ht) in Hd.
    unfold classify, rounds_equal in Hw, Hl, Hd.
    split; [|split].
    + intros Hwon. rewrite Hwon in Hw, Hl, Hd.
      eval_outcomes Hw; eval_outcomes Hl; eval_outcomes Hd. lia.
    + intros Hwon Hr. rewrite Hwon in Hw, Hl, Hd.
      rewrite (bool_decide_eq_true_2 _ Hr) in Hw, Hl, Hd.
      eval_outcomes Hw; eval_outcomes Hl; eval_outcomes Hd. lia.
    + intros Hwon Hr. rewrite Hwon in Hw, Hl, Hd.
      rewrite (bool_decide_eq_false_2 _ Hr) in Hw, Hl, Hd.
      eval_outcomes Hw; eval_outcomes Hl; eval_outcomes Hd. lia.
  - intros Hnone.
    assert (Ho : outcome_of id m = None).
    { unfold outcome_of. destruct Hnone as [-> | (player & -> & ->)]; reflexivity. }
    destruct (unclassified_match_ignored tsl id l1 m l2 Ho) as (Hw & Hl & Hd & _).
    fold before after in Hw, Hl, Hd. auto.
Qed.

Lemma outcome_precedence_witness :
  let before := calculatePlayerStats Sample.runtime
                  ([Sample.won_match] ++ [Sample.lost_match]) "a" in
  let flagged := calculatePlayerStats Sample.runtime
                   ([Sample.won_match] ++ Sample.flagged_tie :: [Sample.lost_match]) "a" in
  let teamless := calculatePlayerStats Sample.runtime
                    ([Sample.won_match] ++ Sample.teamless_match :: [Sample.lost_match]) "a" in
  rounds_won <$> teams Sample.flagged_tie !! "red"
    = rounds_won <$> teams Sample.flagged_tie !! "blue" /\
  (wins flagged = wins before + 1 /\
   draws flagged = draws before /\ losses flagged = losses before) /\
  (wins teamless = wins before /\
   draws teamless = draws before /\ losses teamless = losses before).
Proof.
  split; [reflexivity|]. split.
  - refine (proj1 (proj1 (outcome_precedence Sample.runtime "a" [Sample.won_match]
                            Sample.flagged_tie [Sample.lost_match])
                     (Sample.player "a" "Red" "Jett" 7 0) (Sample.side true 12 12)
                     _ _) _); reflexivity.
  - refine (proj2 (outcome_precedence Sample.runtime "a" [Sample.won_match]
                     Sample.teamless_match [Sample.lost_match]) _).
    right. exists (Sample.player "a" "Green" "Jett" 6 6). split; reflexivity.
Defined.

(** C6, as stated, fails on a match of the sequence in which the
    subject's team has no entry: the flag is not set and red and blue
    have won 13 and 5 rounds, yet the match is counted neither as a loss
    nor as anything else.  And where [teams] has no "red" and no "blue"
    entry, a draw is recorded although the two teams of the match have
    won 3 and 7 rounds. *)
Lemma outcome_precedence_counterexample :
  let before := calculatePlayerStats Sample.runtime [Sample.won_match] "a" in
  let after := calculatePlayerStats Sample.runtime
                 [Sample.won_match; Sample.teamless_match] "a" in
  let other := calculatePlayerStats Sample.runtime
                 [Sample.won_match; Sample.other_teams_match] "a" in
  team_of Sample.teamless_match (Sample.player "a" "Green" "Jett" 6 6) = None /\
  rounds_won <$> teams Sample.teamless_match !! "red" = Some 13 /\
  rounds_won <$> teams Sample.teamless_match !! "blue" = Some 5 /\
  totalMatches after = totalMatches before + 1 /\
  losses after = losses before /\
  draws after = draws before /\ wins after = wins before /\
  rounds_won <$> teams Sample.other_teams_match !! "green" = Some 3 /\
  rounds_won <$> teams Sample.other_teams_match !! "yellow" = Some 7 /\
  draws other = draws before + 1.
Proof. vm_compute. repeat split. Qed.

(** C10: a match in which the subject is found, the subject's team entry
    has [has_won] false, and [teams] has neither a "red" nor a "blue"
    entry, is counted as a draw and not as a loss. *)
Theorem absent_red_blue_is_draw tsl id l1 m l2 player t :
  find_player m id = Some player ->
  team_of m player = Some t ->
  has_won t = false ->
  teams m !! "red" = None ->
  teams m !! "blue" = None ->
  let before := calculatePlayerStats tsl (l1 ++ l2) id in
  let after := calculatePlayerStats tsl (l1 ++ m :: l2) id in
  outcome_of id m = Some Draw /\
  draws after = draws before + 1 /\
  losses after = losses before /\ wins after = wins before.
Proof.
  intros Hp Ht Hwon Hred Hblue before after.
  assert (Hc : classify (teams m) t = Draw).
  { unfold classify, rounds_equal. rewrite Hwon, Hred, Hblue. reflexivity. }
  destruct (calculatePlayerStats_insert tsl id l1 m l2) as (Hw & Hl & Hd).
  fold before after in Hw, Hl, Hd.
  rewrite (has_outcome_found _ Win _ _ _ Hp Ht), Hc in Hw.
  rewrite (has_outcome_found _ Loss _ _ _ Hp Ht), Hc in Hl.
  rewrite (has_outcome_found _ Draw _ _ _ Hp Ht), Hc in Hd.
  split; [rewrite (outcome_of_found _ _ _ _ Hp Ht), Hc; reflexivity|].
  eval_outcomes Hw; eval_outcomes Hl; eval_outcomes Hd. lia.
Qed.

Lemma absent_red_blue_is_draw_witness :
  let before := calculatePlayerStats Sample.runtime ([Sample.won_match] ++ []) "a" in
  let after := calculatePlayerStats Sample.runtime
                 ([Sample.won_match] ++ Sample.other_teams_match :: []) "a" in
  outcome_of "a" Sample.other_teams_match = Some Draw /\
  draws after = draws before + 1 /\
  losses after = losses before /\ wins after = wins before.
Proof.
  refine (absent_red_blue_is_draw Sample.runtime "a" [Sample.won_match]
            Sample.other_teams_match []
            (Sample.player "a" "Green" "Jett" 6 6) (Sample.side false 3 7)
            _ _ _ _ _); reflexivity.
Defined.

(** C7: on the empty sequence the result is the all-zero snapshot, with
    the number 0 for [kd], [winRate] and [headshotPercentage] and empty
    breakdown maps; and on every sequence of match records a call
    returns a snapshot and raises no error. *)
Theorem calculatePlayerStats_empty `{Host} (id : string) (w : World) :
  let zero :=
    {| totalMatches := 0; wins := 0; losses := 0; draws := 0;
       totalKills := 0; totalDeaths := 0; totalAssists := 0; totalScore := 0;
       totalRounds := 0; roundsWon := 0; roundsLost := 0;
       headshotPercentage := JS.num 0;
       totalHeadshots := 0; totalBodyshots := 0; totalLegshots := 0;
       agents := ∅; weapons := ∅; maps := ∅; recentMatches := [];
       kd := JS.num 0; winRate := JS.num 0;
       averageKills := JS.num 0; averageDeaths := JS.num 0;
       averageAssists := JS.num 0; averageScore := JS.num 0 |} in
  calculatePlayerStats toStringLarge [] id = zero /\
  calculatePlayerStats_call [] id w = (Ok zero, w) /\
  forall ms : list Match,
    calculatePlayerStats_call ms id w
      = (Ok (calculatePlayerStats toStringLarge ms id), w).
Proof. repeat split. Qed.

(** ** Rendering of the ratios *)

(** Of the multiples of [10^-f], [toFixed] picks the one nearest to the
    value [m * 2^e]; when two are equally near, the larger. *)
Lemma nearest_scaled_spec (f : nat) (m : positive) (e : Z) :
  e < 0 ->
  let n := JS.nearest_scaled f m e in
  - 2 ^ (- e) < 2 * (n * 2 ^ (- e) - Z.pos m * 10 ^ Z.of_nat f) <= 2 ^ (- e).
Proof.
  intros He n. subst n. unfold JS.nearest_scaled.
  destruct (Z.leb_spec 0 e); [lia|].
  replace (1 - e) with (Z.succ (- e)) by lia.
  rewrite Z.pow_succ_r by lia.
  assert (Hd : 0 < 2 ^ (- e)) by (apply Z.pow_pos_nonneg; lia).
  set (d := 2 ^ (- e)) in *.
  set (a := 2 * Z.pos m * 10 ^ Z.of_nat f + d).
  pose proof (Z.div_mod a (2 * d) ltac:(lia)) as Hdm.
  pose proof (Z.mod_pos_bound a (2 * d) ltac:(lia)) as Hb.
  subst a. nia.
Qed.

Lemma nearest_scaled_exact (f : nat) (m : positive) (e : Z) :
  0 <= e ->
  JS.nearest_scaled f m e = Z.pos m * 2 ^ e * 10 ^ Z.of_nat f.
Proof.
  intros He. unfold JS.nearest_scaled.
  destruct (Z.leb_spec 0 e); [|lia].
  rewrite Z.shiftl_mul_pow2 by lia. reflexivity.
Qed.

Lemma kd_of_pos tsl k d :
  0 < d -> kd_of tsl k d = JS.Str (JS.toFixed tsl 2 (JS.div (JS.of_Z k) (JS.of_Z d))).
Proof. intros Hd. unfold kd_of. destruct (Z.ltb_spec 0 d); [reflexivity|lia]. Qed.

Lemma kd_of_nonpos tsl k d : d <= 0 -> kd_of tsl k d = JS.num k.
Proof. intros Hd. unfold kd_of. destruct (Z.ltb_spec 0 d); [lia|reflexivity]. Qed.

(** C5, as amended: when [totalDeaths > 0], [kd] is the string that
    [toFixed(2)] makes of the quotient [totalKills / totalDeaths]: the
    multiple of 0.01 nearest to that quotient, written with two decimals
    ("2.00" for 20 kills and 10 deaths); otherwise [kd] is the number
    [totalKills] (7 for 7 kills and no deaths). *)
Theorem kd_rendering tsl ms id :
  let s := calculatePlayerStats tsl ms id in
  let q := JS.div (JS.of_Z (totalKills s)) (JS.of_Z (totalDeaths s)) in
  (0 < totalDeaths s -> kd s = JS.Str (JS.toFixed tsl 2 q)) /\
  (totalDeaths s <= 0 -> kd s = JS.num (totalKills s)) /\
  (totalKills s = 20 -> totalDeaths s = 10 -> kd s = JS.Str "2.00") /\
  (totalKills s = 7 -> totalDeaths s = 0 -> kd s = JS.num 7) /\
  (forall sign m e,
     0 < totalDeaths s -> q = S754_finite sign m e ->
     JS.ge_1e21 m e = false -> e < 0 ->
     exists n,
       kd s = JS.Str ((if sign then "-" else "") +:+ JS.fixed_digits 2 n) /\
       - 2 ^ (- e) < 2 * (n * 2 ^ (- e) - Z.pos m * 100) <= 2 ^ (- e)).
Proof.
  intros s q.
  assert (Hkd : kd s = kd_of tsl (totalKills s) (totalDeaths s)) by reflexivity.
  split; [|split; [|split; [|split]]].
  - intros Hd. rewrite Hkd. apply kd_of_pos, Hd.
  - intros Hd. rewrite Hkd. apply kd_of_nonpos, Hd.
  - intros Hk Hd. rewrite Hkd, Hk, Hd. reflexivity.
  - intros Hk Hd. rewrite Hkd, Hk, Hd. reflexivity.
  - intros sign m e Hd Hq Hlarge He.
    exists (JS.nearest_scaled 2 m e). split.
    + rewrite Hkd, kd_of_pos by exact Hd. fold q. rewrite Hq.
      unfold JS.toFixed. rewrite Hlarge. reflexivity.
    + apply (nearest_scaled_spec 2 m e He).
Qed.

Lemma kd_rendering_witness :
  kd (calculatePlayerStats Sample.runtime [Sample.won_match] "a") = JS.Str "2.00" /\
  kd (calculatePlayerStats Sample.runtime [Sample.flagged_tie] "a") = JS.num 7.
Proof.
  split.
  - refine (proj1 (proj2 (proj2
      (kd_rendering Sample.runtime [Sample.won_match] "a"))) _ _); reflexivity.
  - refine (proj1 (proj2 (proj2 (proj2
      (kd_rendering Sample.runtime [Sample.flagged_tie] "a")))) _ _); reflexivity.
Defined.

(** C5, as stated, fails: with 20 kills and 10 deaths [kd] is the string
    "2.00", not a number. *)
Lemma kd_rendering_counterexample :
  let s := calculatePlayerStats Sample.runtime [Sample.won_match] "a" in
  totalKills s = 20 /\ totalDeaths s = 10 /\
  kd s = JS.Str "2.00" /\ JS.is_number (kd s) = false /\
  kd s <> JS.num 2.
Proof. vm_compute. repeat split; congruence. Qed.

(** The quotient is the binary64 one: 201 kills and 200 deaths give
    "1.00", because the double nearest to 201/200 lies below 1.005. *)
Example kd_201_200 tsl : kd_of tsl 201 200 = JS.Str "1.00".
Proof. reflexivity. Qed.

Example winRate_1_of_3 tsl : percent_of tsl 1 3 = JS.Str "33.3".
Proof. reflexivity. Qed.

Example headshots_50_of_100 tsl : percent_of tsl 50 (50 + 40 + 10) = JS.Str "50.0".
Proof. reflexivity. Qed.

(** ** The request layer *)

Section RequestLayer.
Context `{Host}.
Variable this : RiotAPIService.

Lemma truthy_key_nonempty key : key <> "" -> truthy_key (Some key) = Some key.
Proof. destruct key; [congruence|reflexivity]. Qed.

(** A request is answered from the cache or adds one URL to the log. *)
Lemma makeRequestAt_requests issued url cacheKey w :
  requests (snd (makeRequestAt this issued url cacheKey w)) = requests w \/
  requests (snd (makeRequestAt this issued url cacheKey w))
    = (requests w ++ [url])%list.
Proof.
  unfold makeRequestAt.
  destruct (truthy_key cacheKey) as [key|].
  - destruct (cache_get key issued) as [d|]; [destruct (truthy d)|];
      cbn; auto;
      destruct (http_get url (apiKey this) (now w)); cbn; auto.
  - cbn. destruct (http_get url (apiKey this) (now w)); cbn; auto.
Qed.

Lemma makeRequest_cached url key w d :
  key <> "" -> cache_get key w = Some d -> truthy d = true ->
  makeRequest this url (Some key) w = (Ok d, w).
Proof.
  intros Hk Hc Ht. unfold makeRequest, makeRequestAt.
  rewrite (truthy_key_nonempty _ Hk), Hc, Ht. reflexivity.
Qed.

(** What a successful request leaves behind when it went to the network. *)
Lemma makeRequest_ok_inv url key w d w1 :
  key <> "" ->
  makeRequest this url (Some key) w = (Ok d, w1) ->
  (w1 = w /\ cache_get key w = Some d /\ truthy d = true) \/
  (w1 = cache_set key d (record_request url w)).
Proof.
  intros Hk. unfold makeRequest, makeRequestAt.
  rewrite (truthy_key_nonempty _ Hk).
  destruct (cache_get key w) as [c|] eqn:Hc; [destruct (truthy c) eqn:Ht|].
  - intros [= <- <-]. left. auto.
  - destruct (http_get url (apiKey this) (now (record_request url w)));
      intros [= <- <-]. right. reflexivity.
  - destruct (http_get url (apiKey this) (now (record_request url w)));
      intros [= <- <-]. right. reflexivity.
Qed.

Lemma cache_get_fresh key d w t :
  (now w <= t <= now w + stdTTL * 1000)%N ->
  cache_get key (at_time t (cache_set key d w)) = Some d.
Proof.
  intros Ht. unfold cache_get, at_time, cache_set; cbn [cache now].
  rewrite lookup_insert_eq.
  destruct (N.ltb_spec (now w + stdTTL * 1000) t); [lia|reflexivity].
Qed.

(** Two requests under one cache key, the second within the TTL of the
    first, which returned a non-null body: together they reach the
    network at most once, and when the first did, the second gets the
    body the first one stored, whatever its own URL. *)
Lemma makeRequest_twice url url' key w d w1 t :
  key <> "" ->
  makeRequest this url (Some key) w = (Ok d, w1) ->
  truthy d = true ->
  (now w <= t <= now w + stdTTL * 1000)%N ->
  let r := makeRequest this url' (Some key) (at_time t w1) in
  (length (requests (snd r)) <= S (length (requests w)))%nat /\
  (requests w1 <> requests w -> r = (Ok d, at_time t w1)).
Proof.
  intros Hk H1 Hd Ht r.
  destruct (makeRequest_ok_inv _ _ _ _ _ Hk H1) as [(-> & Hc & _)| ->].
  - split; [|congruence].
    subst r. unfold makeRequest.
    destruct (makeRequestAt_requests (at_time t w) url' (Some key) (at_time t w))
      as [-> | ->]; cbn [at_time requests]; rewrite ?length_app; cbn; lia.
  - assert (Hr : r = (Ok d, at_time t (cache_set key d (record_request url w)))).
    { subst r. apply makeRequest_cached; [exact Hk| |exact Hd].
      apply cache_get_fresh. exact Ht. }
    split; [|intros _; exact Hr].
    rewrite Hr. cbn. rewrite length_app. cbn. lia.
Qed.
End RequestLayer.

(** ** Cache keys *)

Lemma append_nil (s : string) : "" +:+ s = s.
Proof. reflexivity. Qed.

Lemma append_cons (c : ascii) (s1 s2 : string) :
  String c s1 +:+ s2 = String c (s1 +:+ s2).
Proof. reflexivity. Qed.

Lemma pretty_N_char_not_colon x : pretty_N_char x <> ":"%char.
Proof. unfold pretty_N_char. repeat case_match; discriminate. Qed.

Lemma pretty_N_go_colon x : forall s,
  has_char ":" (pretty_N_go x s) = has_char ":" s.
Proof.
  induction (N.lt_wf_0 x) as [x _ IH]; intros s.
  destruct (decide (x = 0)%N) as [->|Hx].
  - rewrite pretty_N_go_0. reflexivity.
  - rewrite pretty_N_go_step by lia.
    rewrite IH by (apply N.div_lt; lia).
    cbn [has_char].
    rewrite bool_decide_eq_false_2 by apply pretty_N_char_not_colon.
    reflexivity.
Qed.

Lemma pretty_N_colon (x : N) : has_char ":" (pretty x) = false.
Proof.
  unfold pretty, pretty_N. case_decide; [reflexivity|].
  apply pretty_N_go_colon.
Qed.

(** The decimal rendering of a count has no colon in it. *)
Lemma pretty_Z_colon (z : Z) : has_char ":" (pretty z) = false.
Proof.
  destruct z as [|p|p]; unfold pretty, pretty_Z; [reflexivity| |].
  - apply (pretty_N_colon (N.pos p)).
  - rewrite append_cons, append_nil. cbn [has_char].
    apply (pretty_N_colon (N.pos p)).
Qed.

Lemma has_char_app c s1 s2 :
  has_char c (s1 +:+ s2) = has_char c s1 || has_char c s2.
Proof.
  induction s1 as [|c1 s1 IH].
  - reflexivity.
  - rewrite append_cons. cbn [has_char]. rewrite IH. apply orb_assoc.
Qed.

Lemma has_char_colon_tail s d : has_char ":" (s +:+ String ":" d) = true.
Proof.
  rewrite has_char_app. cbn [has_char].
  rewrite bool_decide_eq_true_2 by reflexivity. apply orb_true_r.
Qed.

(** A string is split in one way only at its last colon. *)
Lemma split_last_colon s1 : forall s2 d1 d2,
  has_char ":" d1 = false -> has_char ":" d2 = false ->
  s1 +:+ ":" +:+ d1 = s2 +:+ ":" +:+ d2 ->
  s1 = s2 /\ d1 = d2.
Proof.
  induction s1 as [|c s1 IH]; intros [|c' s2] d1 d2 H1 H2 E;
    repeat (rewrite append_nil in E || rewrite append_cons in E).
  - injection E as ->. auto.
  - injection E as <- ->. rewrite has_char_colon_tail in H1. discriminate.
  - injection E as -> <-. rewrite has_char_colon_tail in H2. discriminate.
  - injection E as -> E. destruct (IH _ _ _ H1 H2 E) as [-> ->]. auto.
Qed.

(** The key of a match-history request determines the puuid and the count. *)
Lemma matchHistoryKey_inj id id' count count' :
  matchHistoryKey id count = matchHistoryKey id' count' ->
  id = id' /\ count = count'.
Proof.
  unfold matchHistoryKey. intros E.
  rewrite !append_cons, !append_nil in E. injection E as E.
  destruct (split_last_colon _ _ _ _ (pretty_Z_colon count) (pretty_Z_colon count') E)
    as [-> Hc].
  split; [reflexivity|]. exact (inj pretty _ _ Hc).
Qed.

(** C3, as amended: the cache key of a match-history request is made of
    the operation name, the puuid and the count, that of an account
    request of the operation name, the game name and the tag line; the
    region is not part of either.  So of two requests with the same key,
    the second within the TTL of the first, which returned a non-null
    body, at most one reaches the network, and when the first did, the
    second is answered with the body the first one stored, also when its
    region is another one.  Match-history requests that differ in the
    puuid or the count have different keys. *)
Theorem cache_key_without_region `{Host} (this : RiotAPIService) :
  (forall id region region' count w d w1 t,
     getMatchHistory this id region count w = (Ok d, w1) ->
     truthy d = true ->
     (now w <= t <= now w + stdTTL * 1000)%N ->
     let r := getMatchHistory this id region' count (at_time t w1) in
     (length (requests (snd r)) <= S (length (requests w)))%nat /\
     (requests w1 <> requests w -> r = (Ok d, at_time t w1))) /\
  (forall gameName tagLine region region' w d w1 t,
     getAccountByRiotId this gameName tagLine region w = (Ok d, w1) ->
     truthy d = true ->
     (now w <= t <= now w + stdTTL * 1000)%N ->
     let r := getAccountByRiotId this gameName tagLine region' (at_time t w1) in
     (length (requests (snd r)) <= S (length (requests w)))%nat /\
     (requests w1 <> requests w -> r = (Ok d, at_time t w1))) /\
  (forall id id' count count',
     matchHistoryKey id count = matchHistoryKey id' count' ->
     id = id' /\ count = count').
Proof.
  split; [|split].
  - intros id region region' count w d w1 t H1 Hd Ht.
    apply (makeRequest_twice this (matchHistoryUrl id region)
             (matchHistoryUrl id region') (matchHistoryKey id count) w d w1 t);
      [discriminate|exact H1|exact Hd|exact Ht].
  - intros gameName tagLine region region' w d w1 t H1 Hd Ht.
    unfold getAccountByRiotId in *.
    eapply makeRequest_twice; [discriminate|exact H1|exact Hd|exact Ht].
  - apply matchHistoryKey_inj.
Qed.

Lemma cache_key_without_region_witness :
  let first := @getMatchHistory Sample.host Sample.service "c" "europe" 20 Sample.start in
  let second :=
    @getMatchHistory Sample.host Sample.service "c" "asia" 20
      (at_time 200000 (snd first)) in
  fst first = Ok (Sample.entries ["m1"; "m3"; "m4"]) /\
  (length (requests (snd second)) <= 1)%nat /\
  second = (Ok (Sample.entries ["m1"; "m3"; "m4"]), at_time 200000 (snd first)).
Proof.
  intros first second.
  assert (H1 : first = (Ok (Sample.entries ["m1"; "m3"; "m4"]), snd first))
    by (vm_compute; reflexivity).
  split; [rewrite H1; reflexivity|].
  destruct (proj1 (cache_key_without_region (H:=Sample.host) Sample.service)
              "c" "europe" "asia" 20 Sample.start _ _ 200000%N H1 eq_refl)
    as [Hlen Hsame].
  - vm_compute. split; discriminate.
  - split; [exact Hlen|]. apply Hsame. vm_compute. discriminate.
Defined.

(** C3, as stated, fails: a request for the matches of "a" in Europe that
    follows one for Asia is answered from the entry the Asian request
    stored, with the Asian list and without a request to the network,
    although the European list is another one. *)
Lemma cache_key_without_region_counterexample :
  let first := @getMatchHistory Sample.host Sample.service "a" "asia" 20 Sample.start in
  let second := @getMatchHistory Sample.host Sample.service "a" "europe" 20 (snd first) in
  fst first = Ok (Sample.entries ["m3"]) /\
  second = (Ok (Sample.entries ["m3"]), snd first) /\
  fst (@getMatchHistory Sample.host Sample.service "a" "europe" 20 Sample.start)
    = Ok (Sample.entries ["m1"; "m2"; "m4"]).
Proof. vm_compute. repeat split. Qed.

(** ** The fan-out over the match history *)

Lemma collect_map_Ok {A} (l : list A) : collect (List.map Ok l) = Ok l.
Proof. induction l as [|a l IH]; cbn; [|rewrite IH]; reflexivity. Qed.

Lemma collect_Err {A} (rs : list (Result A)) e :
  In (Err e) rs -> exists e', In (Err e') rs /\ collect rs = Err e'.
Proof.
  induction rs as [|r rs IH]; intros Hin; [destruct Hin|].
  destruct r as [a|e0].
  - destruct Hin as [Heq|Hin]; [discriminate|].
    destruct (IH Hin) as (e' & Hin' & Hc).
    exists e'. split; [right; exact Hin'|]. cbn. rewrite Hc. reflexivity.
  - exists e0. split; [left; reflexivity|reflexivity].
Qed.

Lemma settle_all_length {A} (ps : list (M A)) : forall w,
  length (fst (settle_all ps w)) = length ps.
Proof.
  induction ps as [|p ps IH]; intros w; [reflexivity|].
  cbn. destruct (p w) as [r w1]. specialize (IH w1).
  destruct (settle_all ps w1) as [rs w2]. cbn in *. congruence.
Qed.

Section FanOut.
Context `{Host}.
Variable this : RiotAPIService.

Lemma getRecentMatchesWithDetails_unfold id region count w d w1 h rs w2 :
  getMatchHistory this id region count w = (Ok d, w1) ->
  history_of d = Ok h ->
  settle_all (detail_fetches this w1 region h) w1 = (rs, w2) ->
  getRecentMatchesWithDetails this id region count w = (collect rs, w2).
Proof.
  intros H1 H2 H3. unfold getRecentMatchesWithDetails, catch, bind, lift.
  rewrite H1, H2. unfold promise_all.
  rewrite H3. unfold throw. destruct (collect rs); reflexivity.
Qed.
End FanOut.

(** The fan-out is all or nothing: once the history is there, a detail
    fetch is started for every entry.  When all of them succeed the call
    returns their records in the order of the history; when one of them
    fails the call rejects with the error of a failed fetch and returns
    no record, the successful ones included. *)
Theorem getRecentMatchesWithDetails_all_or_error `{Host} (this : RiotAPIService)
    id region count w d w1 h rs w2 :
  getMatchHistory this id region count w = (Ok d, w1) ->
  history_of d = Ok h ->
  settle_all (detail_fetches this w1 region h) w1 = (rs, w2) ->
  length rs = length h /\
  (forall ds, rs = List.map Ok ds ->
     getRecentMatchesWithDetails this id region count w = (Ok ds, w2)) /\
  (forall e, In (Err e) rs ->
     exists e', In (Err e') rs /\
       getRecentMatchesWithDetails this id region count w = (Err e', w2)).
Proof.
  intros H1 H2 H3.
  pose proof (getRecentMatchesWithDetails_unfold this _ _ _ _ _ _ _ _ _ H1 H2 H3) as E.
  split; [|split].
  - pose proof (settle_all_length (detail_fetches this w1 region h) w1) as L.
    rewrite H3 in L. cbn in L. rewrite L. unfold detail_fetches.
    apply length_map.
  - intros ds ->. rewrite E, collect_map_Ok. reflexivity.
  - intros e Hin. destruct (collect_Err rs e Hin) as (e' & Hin' & Hc).
    exists e'. split; [exact Hin'|]. rewrite E, Hc. reflexivity.
Qed.

Lemma getRecentMatchesWithDetails_all_or_error_witness :
  exists w2,
    @getRecentMatchesWithDetails Sample.host Sample.service "c" "europe" 10 Sample.start
      = (Ok [DMatch Sample.won_match; DMatch Sample.tied_match; DMatch Sample.lost_match],
         w2).
Proof.
  eexists.
  refine (proj1 (proj2
    (getRecentMatchesWithDetails_all_or_error (H:=Sample.host) Sample.service
       "c" "europe" 10 Sample.start
       (Sample.entries ["m1"; "m3"; "m4"]) _
       [ {| matchId := "m1" |}; {| matchId := "m3" |}; {| matchId := "m4" |} ]
       _ _ _ _ _)) _ _).
  - vm_compute. reflexivity.
  - reflexivity.
  - vm_compute. reflexivity.
  - reflexivity.
Defined.

(** C1: the code does not do what the claim says.  Of the three matches
    in the European history of "a" the first and the third can be
    fetched and the second cannot; the call rejects with the error of
    the second and returns nothing, where the claim has it return the
    two records that were fetched ([getPlayerProfile] does drop the
    failed fetch on the same data). *)
Lemma getRecentMatchesWithDetails_counterexample :
  let w1 := snd (@getMatchHistory Sample.host Sample.service "a" "europe" 10 Sample.start) in
  fst (@getMatchDetails Sample.host Sample.service "m1" "europe" w1)
    = Ok (DMatch Sample.won_match) /\
  fst (@getMatchDetails Sample.host Sample.service "m2" "europe" w1)
    = Err (RequestFailed 404 "Data not found") /\
  fst (@getMatchDetails Sample.host Sample.service "m4" "europe" w1)
    = Ok (DMatch Sample.lost_match) /\
  fst (@getRecentMatchesWithDetails Sample.host Sample.service "a" "europe" 10 Sample.start)
    = Err (RequestFailed 404 "Data not found") /\
  fst (@getRecentMatchesWithDetails Sample.host Sample.service "a" "europe" 10 Sample.start)
    <> Ok [DMatch Sample.won_match; DMatch Sample.lost_match].
Proof. vm_compute. repeat split; congruence. Qed.

(** C4: [count] reaches the cache key only.  With [count = 2] and an
    upstream history of three entries, three details are requested and
    three records returned. *)
Lemma getRecentMatchesWithDetails_exceeds_count :
  let r := @getRecentMatchesWithDetails Sample.host Sample.service "c" "europe" 2
             Sample.start in
  fst r = Ok [DMatch Sample.won_match; DMatch Sample.tied_match; DMatch Sample.lost_match] /\
  requests (snd r) =
    [ Sample.europe +:+ "/val/match/v1/matchlists/by-puuid/c";
      Sample.europe +:+ "/val/match/v1/matches/m1";
      Sample.europe +:+ "/val/match/v1/matches/m3";
      Sample.europe +:+ "/val/match/v1/matches/m4" ].
Proof. vm_compute. split; reflexivity. Qed.

(** The URL of the history request and the ids it yields are the same
    for every [count]. *)
Lemma matchHistoryUrl_count_free `{Host} (this : RiotAPIService) id region count count' w :
  cache_get (matchHistoryKey id count) w = None ->
  cache_get (matchHistoryKey id count') w = None ->
  fst (getMatchHistory this id region count w)
    = fst (getMatchHistory this id region count' w).
Proof.
  intros Hc Hc'. unfold getMatchHistory, makeRequest, makeRequestAt.
  rewrite !truthy_key_nonempty by discriminate. rewrite Hc, Hc'.
  cbn. destruct (http_get _ _ _); reflexivity.
Qed.

(** ** The profile *)

(** C8: when the account is resolved and the history request fails, or
    its body has no entries, the profile is returned with the literal
    all-zero statistics ([totalMatches = 0]) and a null [rank], and no
    error reaches the caller; an error of the account request does. *)
Theorem getPlayerProfile_without_history `{Host} (this : RiotAPIService)
    gameName tagLine region platformRegion w :
  (forall a w1,
     getAccountByRiotId this gameName tagLine region w = (Ok (DAccount a), w1) ->
     (forall d w2, getMatchHistory this (acc_puuid a) region 5 w1 = (Ok d, w2) ->
                   nonempty_history d = None) ->
     exists p w2,
       getPlayerProfile this gameName tagLine region platformRegion w = (Ok p, w2) /\
       account p = a /\ rank p = None /\
       statistics p = Literal zeroStats /\
       statistics_totalMatches (statistics p) = 0 /\
       lastUpdated p = now w2) /\
  (forall e w1,
     getAccountByRiotId this gameName tagLine region w = (Err e, w1) ->
     getPlayerProfile this gameName tagLine region platformRegion w = (Err e, w1)).
Proof.
  split.
  - intros a w1 Hacc Hhist.
    unfold getPlayerProfile, catch, bind, lift, ret. rewrite Hacc. cbn [as_account].
    destruct (getMatchHistory this (acc_puuid a) region 5 w1) as [[d|e] w2] eqn:Hh.
    + rewrite (Hhist d w2 eq_refl).
      eexists _, w2. split; [reflexivity|]. destruct a. repeat split.
    + eexists _, w2. split; [reflexivity|]. destruct a. repeat split.
  - intros e w1 Hacc.
    unfold getPlayerProfile, catch, bind, throw. rewrite Hacc. reflexivity.
Qed.

Lemma getPlayerProfile_without_history_witness :
  (exists p w2,
     @getPlayerProfile Sample.host Sample.service "Gus" "EUW" "europe" "eu" Sample.start
       = (Ok p, w2) /\
     statistics_totalMatches (statistics p) = 0 /\ rank p = None) /\
  (exists p w2,
     @getPlayerProfile Sample.host Sample.service "Nic" "EUW" "europe" "eu" Sample.start
       = (Ok p, w2) /\
     statistics_totalMatches (statistics p) = 0 /\ rank p = None).
Proof.
  split.
  - destruct (proj1 (getPlayerProfile_without_history (H:=Sample.host) Sample.service
                       "Gus" "EUW" "europe" "eu" Sample.start)
                {| acc_puuid := "g"; acc_gameName := "Gus"; acc_tagLine := "EUW" |}
                (snd (@getAccountByRiotId Sample.host Sample.service
                        "Gus" "EUW" "europe" Sample.start)))
      as (p & w2 & Hp & _ & Hrank & _ & Htotal & _).
    + vm_compute. reflexivity.
    + intros d w2. vm_compute. discriminate.
    + exists p, w2. auto.
  - destruct (proj1 (getPlayerProfile_without_history (H:=Sample.host) Sample.service
                       "Nic" "EUW" "europe" "eu" Sample.start)
                {| acc_puuid := "n"; acc_gameName := "Nic"; acc_tagLine := "EUW" |}
                (snd (@getAccountByRiotId Sample.host Sample.service
                        "Nic" "EUW" "europe" Sample.start)))
      as (p & w2 & Hp & _ & Hrank & _ & Htotal & _).
    + vm_compute. reflexivity.
    + intros d w2. vm_compute. intros [= <- _]. reflexivity.
    + exists p, w2. auto.
Defined.

(** * Further properties *)

(** ** The totals *)

Lemma sum_over_app f l1 l2 : sum_over f (l1 ++ l2) = sum_over f l1 + sum_over f l2.
Proof. unfold sum_over. induction l1 as [|m l1 IH]; cbn; [reflexivity|rewrite IH; lia]. Qed.

Lemma sum_over_ext f g ms :
  (forall m, f m = g m) -> sum_over f ms = sum_over g ms.
Proof.
  intros E. unfold sum_over.
  induction ms as [|m ms IH]; cbn; [reflexivity|rewrite IH, E; lia].
Qed.

Lemma sum_over_plus f g ms :
  sum_over (fun m => f m + g m) ms = sum_over f ms + sum_over g ms.
Proof. unfold sum_over. induction ms as [|m ms IH]; cbn; [reflexivity|rewrite IH; lia]. Qed.

Lemma sum_over_perm f l1 l2 : Permutation l1 l2 -> sum_over f l1 = sum_over f l2.
Proof. unfold sum_over. induction 1; cbn; lia. Qed.

Lemma count_matches_perm P l1 l2 :
  Permutation l1 l2 -> count_matches P l1 = count_matches P l2.
Proof.
  induction 1.
  - reflexivity.
  - rewrite !count_matches_cons. lia.
  - rewrite !count_matches_cons. lia.
  - lia.
Qed.

(** A counter to which every match adds a quantity of its own ends up
    as the sum of these quantities. *)
Lemma fold_left_linear (proj : Counters -> Z) (delta : Match -> Z) id :
  (forall c m, proj (fold_match id c m) = proj c + delta m) ->
  forall ms c,
    proj (fold_left (fold_match id) ms c) = proj c + sum_over delta ms.
Proof.
  intros Hstep. unfold sum_over.
  induction ms as [|m ms IH]; intros c; cbn [fold_left fold_right].
  - lia.
  - rewrite IH, Hstep. lia.
Qed.

Ltac fold_match_step :=
  let c := fresh "c" in let m := fresh "m" in
  intros c m; unfold fold_match, subject_value;
  destruct (find_player m _) as [?p|]; cbn;
  [ try reflexivity | symmetry; apply Z.add_0_r ].

Lemma fold_matches_totals id ms :
  let c := fold_matches id ms in
  c_totalKills c = sum_over (subject_value id kills_in) ms /\
  c_totalDeaths c = sum_over (subject_value id deaths_in) ms /\
  c_totalAssists c = sum_over (subject_value id assists_in) ms /\
  c_totalScore c = sum_over (subject_value id score_in) ms /\
  c_roundsWon c = sum_over (subject_value id rounds_won_in) ms /\
  c_roundsLost c = sum_over (subject_value id rounds_lost_in) ms /\
  c_totalHeadshots c = sum_over (subject_value id headshots_in) ms /\
  c_totalBodyshots c = sum_over (subject_value id bodyshots_in) ms /\
  c_totalLegshots c = sum_over (subject_value id legshots_in) ms.
Proof.
  unfold fold_matches.
  repeat split;
    match goal with
    | |- ?proj _ = sum_over ?d ms =>
        rewrite (fold_left_linear proj d id); [reflexivity|fold_match_step]
    end.
Qed.

Lemma fold_matches_totalRounds id ms :
  c_totalRounds (fold_matches id ms)
    = c_roundsWon (fold_matches id ms) + c_roundsLost (fold_matches id ms).
Proof.
  destruct (fold_matches_totals id ms) as (_ & _ & _ & _ & Hw & Hl & _).
  cbv zeta in Hw, Hl. rewrite Hw, Hl, <- sum_over_plus.
  unfold fold_matches.
  rewrite (fold_left_linear c_totalRounds
             (fun m => subject_value id rounds_won_in m
                       + subject_value id rounds_lost_in m) id).
  - reflexivity.
  - intros c m. unfold fold_match, subject_value, rounds_won_in, rounds_lost_in.
    destruct (find_player m id) as [p|]; cbn; [|lia].
    destruct (team_of m p); cbn; lia.
Qed.

(** ** The breakdowns *)

Lemma fold_matches_snoc id ms m :
  fold_matches id (ms ++ [m]) = fold_match id (fold_matches id ms) m.
Proof. unfold fold_matches. rewrite fold_left_app. reflexivity. Qed.

Lemma sum_over_snoc f ms m : sum_over f (ms ++ [m]) = sum_over f ms + f m.
Proof. rewrite sum_over_app. unfold sum_over; cbn. lia. Qed.

Lemma as_agent_one_range id name m :
  0 <= subject_value id (as_agent name one) m <= 1.
Proof.
  unfold subject_value, as_agent, one.
  destruct (find_player m id); cbn; [case_bool_decide|]; lia.
Qed.

Lemma on_map_one_range id name m :
  0 <= subject_value id (on_map name one) m <= 1.
Proof.
  unfold subject_value, on_map, one.
  destruct (find_player m id); cbn; [case_bool_decide|]; lia.
Qed.

Lemma sum_over_nonneg f ms : (forall m, 0 <= f m) -> 0 <= sum_over f ms.
Proof.
  intros Hf. unfold sum_over. induction ms as [|m ms IH]; cbn; [lia|].
  specialize (Hf m). lia.
Qed.

(** No match played with an agent: every quantity restricted to that
    agent sums to 0. *)
Lemma as_agent_none id name f ms :
  sum_over (subject_value id (as_agent name one)) ms = 0 ->
  sum_over (subject_value id (as_agent name f)) ms = 0.
Proof.
  unfold sum_over. induction ms as [|m ms IH]; cbn; [reflexivity|].
  intros Hz.
  pose proof (as_agent_one_range id name m) as Hr.
  pose proof (sum_over_nonneg (subject_value id (as_agent name one)) ms
                (fun m => proj1 (as_agent_one_range id name m))) as Hn.
  unfold sum_over in Hn.
  rewrite IH by lia.
  assert (Hm : subject_value id (as_agent name one) m = 0) by lia.
  revert Hm. unfold subject_value, as_agent, one.
  destruct (find_player m id); cbn; [case_bool_decide|]; lia.
Qed.

Lemma on_map_none id name f ms :
  sum_over (subject_value id (on_map name one)) ms = 0 ->
  sum_over (subject_value id (on_map name f)) ms = 0.
Proof.
  unfold sum_over. induction ms as [|m ms IH]; cbn; [reflexivity|].
  intros Hz.
  pose proof (on_map_one_range id name m) as Hr.
  pose proof (sum_over_nonneg (subject_value id (on_map name one)) ms
                (fun m => proj1 (on_map_one_range id name m))) as Hn.
  unfold sum_over in Hn.
  rewrite IH by lia.
  assert (Hm : subject_value id (on_map name one) m = 0) by lia.
  revert Hm. unfold subject_value, on_map, one.
  destruct (find_player m id); cbn; [case_bool_decide|]; lia.
Qed.

Lemma subject_value_eq id g m :
  subject_value id g m = from_option (g m) 0 (find_player m id).
Proof. reflexivity. Qed.

Lemma as_agent_eq name f m p :
  as_agent name f m p = if bool_decide (character p = name) then f m p else 0.
Proof. reflexivity. Qed.

Lemma on_map_eq name f m p :
  on_map name f m p = if bool_decide (md_map (metadata m) = name) then f m p else 0.
Proof. reflexivity. Qed.

(** The entry of an agent while the matches are folded. *)
Lemma fold_matches_agent id name ms :
  let total f := sum_over (subject_value id (as_agent name f)) ms in
  c_agents (fold_matches id ms) !! name =
  if bool_decide (total one = 0) then None
  else Some {| ag_matches := total one; ag_wins := total won_in;
               ag_kills := total kills_in; ag_deaths := total deaths_in;
               ag_assists := total assists_in;
               ag_kd := JS.num 0; ag_winRate := JS.num 0 |}.
Proof.
  induction ms as [|m ms IH] using rev_ind; [reflexivity|].
  cbv zeta in *. rewrite fold_matches_snoc, !sum_over_snoc.
  pose proof (sum_over_nonneg (subject_value id (as_agent name one)) ms
                (fun m => proj1 (as_agent_one_range id name m))) as Hn.
  unfold fold_match at 1.
  rewrite !subject_value_eq.
  destruct (find_player m id) as [p|]; cbn [from_option c_agents].
  - rewrite !as_agent_eq.
    destruct (decide (character p = name)) as [Hc|Hc].
    + rewrite !(bool_decide_eq_true_2 _ Hc), Hc, lookup_insert_eq, IH.
      case_bool_decide as Hz.
      * rewrite !(as_agent_none id name _ ms Hz).
        change (one m p) with 1.
        rewrite bool_decide_eq_false_2 by lia.
        cbn. unfold won_in, kills_in, deaths_in, assists_in.
        f_equal.
      * change (one m p) with 1.
        rewrite bool_decide_eq_false_2 by lia.
        cbn. reflexivity.
    + rewrite !(bool_decide_eq_false_2 _ Hc), lookup_insert_ne by exact Hc.
      rewrite IH, !Z.add_0_r. reflexivity.
  - rewrite IH, !Z.add_0_r. reflexivity.
Qed.

(** The entry of a map while the matches are folded. *)
Lemma fold_matches_map id name ms :
  let total f := sum_over (subject_value id (on_map name f)) ms in
  c_maps (fold_matches id ms) !! name =
  if bool_decide (total one = 0) then None
  else Some {| mc_matches := total one; mc_wins := total won_in;
               mc_kills := total kills_in; mc_deaths := total deaths_in;
               mc_roundsWon := total rounds_won_in;
               mc_roundsLost := total rounds_lost_in |}.
Proof.
  induction ms as [|m ms IH] using rev_ind; [reflexivity|].
  cbv zeta in *. rewrite fold_matches_snoc, !sum_over_snoc.
  pose proof (sum_over_nonneg (subject_value id (on_map name one)) ms
                (fun m => proj1 (on_map_one_range id name m))) as Hn.
  unfold fold_match at 1.
  rewrite !subject_value_eq.
  destruct (find_player m id) as [p|]; cbn [from_option c_maps].
  - rewrite !on_map_eq.
    destruct (decide (md_map (metadata m) = name)) as [Hc|Hc].
    + rewrite !(bool_decide_eq_true_2 _ Hc), Hc, lookup_insert_eq, IH.
      case_bool_decide as Hz.
      * rewrite !(on_map_none id name _ ms Hz).
        change (one m p) with 1.
        rewrite bool_decide_eq_false_2 by lia.
        cbn. unfold won_in, kills_in, deaths_in, rounds_won_in, rounds_lost_in.
        f_equal.
      * change (one m p) with 1.
        rewrite bool_decide_eq_false_2 by lia.
        cbn. reflexivity.
    + rewrite !(bool_decide_eq_false_2 _ Hc), lookup_insert_ne by exact Hc.
      rewrite IH, !Z.add_0_r. reflexivity.
  - rewrite IH, !Z.add_0_r. reflexivity.
Qed.

(** X1: every total of the snapshot is the sum, over the matches in
    which the subject is found, of the subject's own figure in that
    match; and [totalRounds] is always [roundsWon + roundsLost]. *)
Theorem totals_are_sums tsl ms id :
  let s := calculatePlayerStats tsl ms id in
  totalKills s = sum_over (subject_value id kills_in) ms /\
  totalDeaths s = sum_over (subject_value id deaths_in) ms /\
  totalAssists s = sum_over (subject_value id assists_in) ms /\
  totalScore s = sum_over (subject_value id score_in) ms /\
  roundsWon s = sum_over (subject_value id rounds_won_in) ms /\
  roundsLost s = sum_over (subject_value id rounds_lost_in) ms /\
  totalHeadshots s = sum_over (subject_value id headshots_in) ms /\
  totalBodyshots s = sum_over (subject_value id bodyshots_in) ms /\
  totalLegshots s = sum_over (subject_value id legshots_in) ms /\
  totalRounds s = roundsWon s + roundsLost s.
Proof.
  intros s. subst s. unfold calculatePlayerStats. cbn.
  pose proof (fold_matches_totals id ms) as Ht. cbv zeta in Ht.
  pose proof (fold_matches_totalRounds id ms) as Hr.
  repeat split; try apply Ht; exact Hr.
Qed.

(** X2: the entry of an agent in the breakdown.  There is none when the
    subject played no match of the sequence with that agent; otherwise
    its counters are the sums over the matches played with that agent,
    and its [kd] and [winRate] are the ratios of these very counters. *)
Theorem agent_breakdown tsl ms id name :
  let s := calculatePlayerStats tsl ms id in
  let total f := sum_over (subject_value id (as_agent name f)) ms in
  agents s !! name =
  if bool_decide (total one = 0) then None
  else Some {| ag_matches := total one; ag_wins := total won_in;
               ag_kills := total kills_in; ag_deaths := total deaths_in;
               ag_assists := total assists_in;
               ag_kd := kd_of tsl (total kills_in) (total deaths_in);
               ag_winRate := percent_of tsl (total won_in) (total one) |}.
Proof.
  intros s total. subst s total. unfold calculatePlayerStats. cbn [agents].
  rewrite lookup_fmap, fold_matches_agent. cbv zeta.
  destruct (bool_decide _); reflexivity.
Qed.

(** X3: the entry of a map in the breakdown, likewise, with the rounds
    won and lost on that map and the round win rate made of them. *)
Theorem map_breakdown tsl ms id name :
  let s := calculatePlayerStats tsl ms id in
  let total f := sum_over (subject_value id (on_map name f)) ms in
  maps s !! name =
  if bool_decide (total one = 0) then None
  else Some {| mp_counters :=
                 {| mc_matches := total one; mc_wins := total won_in;
                    mc_kills := total kills_in; mc_deaths := total deaths_in;
                    mc_roundsWon := total rounds_won_in;
                    mc_roundsLost := total rounds_lost_in |};
               mp_winRate := percent_of tsl (total won_in) (total one);
               mp_kd := kd_of tsl (total kills_in) (total deaths_in);
               mp_roundWinRate :=
                 percent_of tsl (total rounds_won_in)
                   (total rounds_won_in + total rounds_lost_in) |}.
Proof.
  intros s total. subst s total. unfold calculatePlayerStats. cbn [maps].
  rewrite lookup_fmap, fold_matches_map. cbv zeta.
  destruct (bool_decide _); reflexivity.
Qed.

(** ** The recent matches *)

Lemma fold_left_recent id ms : forall c,
  c_recentMatches (fold_left (fold_match id) ms c)
    = (c_recentMatches c ++ omap (summary_of id) ms)%list.
Proof.
  induction ms as [|m ms IH]; intros c; cbn [fold_left omap list_omap].
  - rewrite app_nil_r. reflexivity.
  - rewrite IH. unfold fold_match, summary_of.
    destruct (find_player m id) as [p|]; cbn.
    + rewrite <- app_assoc. reflexivity.
    + reflexivity.
Qed.

(** X4: [recentMatches] has one summary for each match in which the
    subject is found, in the order of the input, and none for the
    others; nothing bounds its length. *)
Theorem recentMatches_in_order tsl ms id :
  let s := calculatePlayerStats tsl ms id in
  recentMatches s = omap (summary_of id) ms /\
  Z.of_nat (length (recentMatches s)) = count_matches (found id) ms /\
  List.map ms_matchId (recentMatches s)
    = List.map (fun m => md_matchid (metadata m)) (List.filter (found id) ms).
Proof.
  intros s.
  assert (E : recentMatches s = omap (summary_of id) ms).
  { subst s. unfold calculatePlayerStats, fold_matches. cbn [recentMatches].
    rewrite fold_left_recent. reflexivity. }
  split; [exact E|]. rewrite E. clear. unfold count_matches.
  assert (Hs : forall m,
             (summary_of id m = None /\ found id m = false) \/
             (exists y, summary_of id m = Some y /\ found id m = true /\
                        ms_matchId y = md_matchid (metadata m))).
  { intros m. unfold summary_of, found.
    destruct (find_player m id) as [p|]; [right|left].
    - eexists. repeat split.
    - split; reflexivity. }
  induction ms as [|m ms [IH1 IH2]]; [split; reflexivity|].
  cbn [omap list_omap List.filter].
  destruct (Hs m) as [[-> ->]|(y & -> & -> & Hy)].
  - split; assumption.
  - cbn [length List.map]. rewrite Hy, IH2. split; [lia|reflexivity].
Qed.

(** ** Order of the matches *)

Lemma fold_matches_perm id ms ms' :
  Permutation ms ms' ->
  exists r,
    Permutation (c_recentMatches (fold_matches id ms)) r /\
    fold_matches id ms' =
    {| c_wins := c_wins (fold_matches id ms);
       c_losses := c_losses (fold_matches id ms);
       c_draws := c_draws (fold_matches id ms);
       c_totalKills := c_totalKills (fold_matches id ms);
       c_totalDeaths := c_totalDeaths (fold_matches id ms);
       c_totalAssists := c_totalAssists (fold_matches id ms);
       c_totalScore := c_totalScore (fold_matches id ms);
       c_totalRounds := c_totalRounds (fold_matches id ms);
       c_roundsWon := c_roundsWon (fold_matches id ms);
       c_roundsLost := c_roundsLost (fold_matches id ms);
       c_totalHeadshots := c_totalHeadshots (fold_matches id ms);
       c_totalBodyshots := c_totalBodyshots (fold_matches id ms);
       c_totalLegshots := c_totalLegshots (fold_matches id ms);
       c_agents := c_agents (fold_matches id ms);
       c_maps := c_maps (fold_matches id ms);
       c_recentMatches := r |}.
Proof.
  intros Hp. exists (c_recentMatches (fold_matches id ms')). split.
  - unfold fold_matches. rewrite !fold_left_recent. cbn.
    apply omap_Permutation. exact Hp.
  - pose proof (fold_left_counters id ms initial) as (Hw & Hl & Hd).
    pose proof (fold_left_counters id ms' initial) as (Hw' & Hl' & Hd').
    fold (fold_matches id ms) in Hw, Hl, Hd.
    fold (fold_matches id ms') in Hw', Hl', Hd'.
    rewrite (count_matches_perm _ _ _ Hp) in Hw.
    rewrite (count_matches_perm _ _ _ Hp) in Hl.
    rewrite (count_matches_perm _ _ _ Hp) in Hd.
    pose proof (fold_matches_totals id ms) as Ht.
    pose proof (fold_matches_totals id ms') as Ht'.
    cbv zeta in Ht, Ht'.
    rewrite !(sum_over_perm _ _ _ Hp) in Ht.
    destruct Ht as (T1 & T2 & T3 & T4 & T5 & T6 & T7 & T8 & T9).
    destruct Ht' as (T1' & T2' & T3' & T4' & T5' & T6' & T7' & T8' & T9').
    pose proof (fold_matches_totalRounds id ms) as Hr.
    pose proof (fold_matches_totalRounds id ms') as Hr'.
    assert (Ha : c_agents (fold_matches id ms') = c_agents (fold_matches id ms)).
    { apply map_eq. intros name. rewrite !fold_matches_agent. cbv zeta.
      rewrite !(sum_over_perm _ _ _ Hp). reflexivity. }
    assert (Hm : c_maps (fold_matches id ms') = c_maps (fold_matches id ms)).
    { apply map_eq. intros name. rewrite !fold_matches_map. cbv zeta.
      rewrite !(sum_over_perm _ _ _ Hp). reflexivity. }
    destruct (fold_matches id ms') as [w' l' d' k' de' a' sc' tr' rw' rl' h' b' lg' ag' mp' rc'].
    cbn in *. f_equal; congruence || lia.
Qed.

(** X5: the snapshot does not depend on the order of the matches, the
    order of [recentMatches] apart: a permutation of the input changes
    no total, no ratio and no breakdown entry. *)
Theorem calculatePlayerStats_order tsl ms ms' id :
  Permutation ms ms' ->
  let s := calculatePlayerStats tsl ms id in
  exists r,
    Permutation (recentMatches s) r /\
    calculatePlayerStats tsl ms' id =
    {| totalMatches := totalMatches s; wins := wins s; losses := losses s;
       draws := draws s; totalKills := totalKills s; totalDeaths := totalDeaths s;
       totalAssists := totalAssists s; totalScore := totalScore s;
       totalRounds := totalRounds s; roundsWon := roundsWon s;
       roundsLost := roundsLost s; headshotPercentage := headshotPercentage s;
       totalHeadshots := totalHeadshots s; totalBodyshots := totalBodyshots s;
       totalLegshots := totalLegshots s; agents := agents s;
       weapons := weapons s; maps := maps s; recentMatches := r;
       kd := kd s; winRate := winRate s; averageKills := averageKills s;
       averageDeaths := averageDeaths s; averageAssists := averageAssists s;
       averageScore := averageScore s |}.
Proof.
  intros Hp s. destruct (fold_matches_perm id ms ms' Hp) as (r & Hr & E).
  exists r. split; [exact Hr|].
  subst s. unfold calculatePlayerStats.
  rewrite <- (Permutation_length Hp), E. reflexivity.
Qed.

Lemma calculatePlayerStats_order_witness :
  Permutation [Sample.won_match; Sample.foreign_match; Sample.lost_match]
              [Sample.lost_match; Sample.won_match; Sample.foreign_match] /\
  agents (calculatePlayerStats Sample.runtime
            [Sample.lost_match; Sample.won_match; Sample.foreign_match] "a")
  = agents (calculatePlayerStats Sample.runtime
              [Sample.won_match; Sample.foreign_match; Sample.lost_match] "a").
Proof.
  assert (Hp : Permutation [Sample.won_match; Sample.foreign_match; Sample.lost_match]
                 [Sample.lost_match; Sample.won_match; Sample.foreign_match]).
  { apply Permutation_sym, (Permutation_cons_app [_; _] []). reflexivity. }
  split; [exact Hp|].
  destruct (calculatePlayerStats_order Sample.runtime _ _ "a" Hp) as (r & _ & E).
  rewrite E. reflexivity.
Defined.

(** ** Matches that do not involve the subject *)

Lemma fold_matches_insert_absent id l1 m l2 :
  find_player m id = None ->
  fold_matches id (l1 ++ m :: l2) = fold_matches id (l1 ++ l2).
Proof.
  intros Hn. unfold fold_matches. rewrite !fold_left_app. cbn [fold_left].
  unfold fold_match at 2. rewrite Hn. reflexivity.
Qed.

(** X6: a match in which the subject is not found is still counted in
    [totalMatches], and so lowers [winRate] and the per-match averages,
    which divide by [totalMatches]; it changes nothing else: no total, no
    [kd], no headshot percentage, no breakdown entry, no recent match. *)
Theorem absent_subject_dilutes tsl id l1 m l2 :
  find_player m id = None ->
  let s := calculatePlayerStats tsl (l1 ++ l2) id in
  let n := totalMatches s + 1 in
  calculatePlayerStats tsl (l1 ++ m :: l2) id =
  {| totalMatches := n; wins := wins s; losses := losses s;
     draws := draws s; totalKills := totalKills s; totalDeaths := totalDeaths s;
     totalAssists := totalAssists s; totalScore := totalScore s;
     totalRounds := totalRounds s; roundsWon := roundsWon s;
     roundsLost := roundsLost s; headshotPercentage := headshotPercentage s;
     totalHeadshots := totalHeadshots s; totalBodyshots := totalBodyshots s;
     totalLegshots := totalLegshots s; agents := agents s;
     weapons := weapons s; maps := maps s; recentMatches := recentMatches s;
     kd := kd s;
     winRate := percent_of tsl (wins s) n;
     averageKills := average_of tsl (totalKills s) n;
     averageDeaths := average_of tsl (totalDeaths s) n;
     averageAssists := average_of tsl (totalAssists s) n;
     averageScore := rounded_average_of (totalScore s) n |}.
Proof.
  intros Hn s n. subst s n. unfold calculatePlayerStats.
  rewrite (fold_matches_insert_absent id l1 m l2 Hn). cbn.
  replace (Z.of_nat (length (l1 ++ m :: l2)))
    with (Z.of_nat (length (l1 ++ l2)) + 1)
    by (rewrite !length_app; cbn [length]; lia).
  reflexivity.
Qed.

Lemma absent_subject_dilutes_witness :
  let s := calculatePlayerStats Sample.runtime ([Sample.won_match] ++ []) "a" in
  let s' := calculatePlayerStats Sample.runtime
              ([Sample.won_match] ++ Sample.foreign_match :: []) "a" in
  find_player Sample.foreign_match "a" = None /\
  winRate s = JS.Str "100.0" /\ winRate s' = JS.Str "50.0" /\
  averageKills s = JS.Str "20.0" /\ averageKills s' = JS.Str "10.0" /\
  kd s' = kd s.
Proof.
  cbv zeta. split; [reflexivity|].
  rewrite (absent_subject_dilutes Sample.runtime "a" [Sample.won_match]
             Sample.foreign_match [] eq_refl).
  vm_compute. repeat split.
Defined.

(** ** The team lookup *)

Lemma lower_ascii_not_upper c :
  let n := N_of_ascii (lower_ascii c) in
  ((65 <=? n) && (n <=? 90))%N = false.
Proof.
  unfold lower_ascii.
  destruct ((65 <=? N_of_ascii c) && (N_of_ascii c <=? 90))%N eqn:E.
  - apply andb_true_iff in E as [E1 E2].
    apply N.leb_le in E1, E2. cbv zeta.
    rewrite N_ascii_embedding by lia.
    apply andb_false_iff. right. apply N.leb_gt. lia.
  - exact E.
Qed.

Lemma toLowerCase_no_upper s : has_upper (toLowerCase s) = false.
Proof.
  induction s as [|c s IH]; [reflexivity|].
  cbn [toLowerCase has_upper]. rewrite IH, orb_false_r.
  apply lower_ascii_not_upper.
Qed.

Lemma sum_over_insert f l1 m l2 :
  sum_over f (l1 ++ m :: l2) = sum_over f (l1 ++ l2) + f m.
Proof.
  rewrite !sum_over_app. unfold sum_over at 2. cbn [fold_right].
  fold (sum_over f l2). lia.
Qed.

(** The effect on the totals of one more match anywhere in the sequence. *)
Lemma calculatePlayerStats_insert_totals tsl id l1 m l2 :
  let before := calculatePlayerStats tsl (l1 ++ l2) id in
  let after := calculatePlayerStats tsl (l1 ++ m :: l2) id in
  totalKills after = totalKills before + subject_value id kills_in m /\
  totalDeaths after = totalDeaths before + subject_value id deaths_in m /\
  totalAssists after = totalAssists before + subject_value id assists_in m /\
  roundsWon after = roundsWon before + subject_value id rounds_won_in m /\
  roundsLost after = roundsLost before + subject_value id rounds_lost_in m /\
  totalRounds after = totalRounds before
                      + subject_value id rounds_won_in m
                      + subject_value id rounds_lost_in m /\
  totalMatches after = totalMatches before + 1.
Proof.
  intros before after. subst before after.
  unfold calculatePlayerStats.
  cbn [totalKills totalDeaths totalAssists roundsWon roundsLost totalRounds totalMatches].
  rewrite !fold_matches_totalRounds.
  destruct (fold_matches_totals id (l1 ++ l2)) as (K & D & A & _ & W & L & _).
  destruct (fold_matches_totals id (l1 ++ m :: l2)) as (K' & D' & A' & _ & W' & L' & _).
  cbv zeta in *.
  rewrite K, D, A, W, L, K', D', A', W', L', !sum_over_insert, !length_app.
  cbn [length]. repeat split; lia.
Qed.

(** X7: the subject's team is looked up under the lower-cased team
    name, so an entry of [teams] whose key has an upper-case letter is
    never found.  A match whose [teams] has only such keys, wherever it
    stands in the sequence, adds nothing to [wins], [losses], [draws],
    [roundsWon], [roundsLost] and [totalRounds]; it is counted in
    [totalMatches], and the subject's kills, deaths and assists in it
    are added to the totals. *)
Theorem capitalised_team_keys_unused tsl id l1 m l2 :
  (forall k, is_Some (teams m !! k) -> has_upper k = true) ->
  let before := calculatePlayerStats tsl (l1 ++ l2) id in
  let after := calculatePlayerStats tsl (l1 ++ m :: l2) id in
  (forall p, team_of m p = None) /\
  wins after = wins before /\
  losses after = losses before /\
  draws after = draws before /\
  roundsWon after = roundsWon before /\
  roundsLost after = roundsLost before /\
  totalRounds after = totalRounds before /\
  totalMatches after = totalMatches before + 1 /\
  (forall p, find_player m id = Some p ->
     totalKills after = totalKills before + ps_kills (stats p) /\
     totalDeaths after = totalDeaths before + ps_deaths (stats p) /\
     totalAssists after = totalAssists before + ps_assists (stats p)).
Proof.
  intros Hk before after.
  assert (Ht : forall p, team_of m p = None).
  { intros p. unfold team_of.
    destruct (teams m !! toLowerCase (team p)) as [t|] eqn:E; [|reflexivity].
    pose proof (Hk _ (mk_is_Some _ _ E)) as Hu.
    rewrite toLowerCase_no_upper in Hu. discriminate. }
  assert (Ho : outcome_of id m = None).
  { unfold outcome_of. destruct (find_player m id); [rewrite Ht|]; reflexivity. }
  assert (Hrw : subject_value id rounds_won_in m = 0).
  { unfold subject_value, rounds_won_in.
    destruct (find_player m id); cbn; rewrite ?Ht; reflexivity. }
  assert (Hrl : subject_value id rounds_lost_in m = 0).
  { unfold subject_value, rounds_lost_in.
    destruct (find_player m id); cbn; rewrite ?Ht; reflexivity. }
  destruct (unclassified_match_ignored tsl id l1 m l2 Ho) as (Hw & Hl & Hd & Hn).
  destruct (calculatePlayerStats_insert_totals tsl id l1 m l2)
    as (K & D & A & W & L & R & _).
  fold before after in Hw, Hl, Hd, Hn, K, D, A, W, L, R.
  rewrite Hrw in W, R. rewrite Hrl in L, R.
  split; [exact Ht|].
  repeat (split; [assumption || lia|]).
  intros p Hp. unfold subject_value in K, D, A. rewrite Hp in K, D, A.
  cbn in K, D, A. auto.
Qed.

Lemma capitalised_team_keys_unused_witness :
  let before := calculatePlayerStats Sample.runtime ([Sample.lost_match] ++ []) "a" in
  let after := calculatePlayerStats Sample.runtime
                 ([Sample.lost_match] ++ Fixture.capitalised_match :: []) "a" in
  wins after = wins before /\
  roundsWon after = roundsWon before /\
  totalMatches after = totalMatches before + 1 /\
  totalKills after = totalKills before + 9.
Proof.
  destruct (capitalised_team_keys_unused Sample.runtime "a" [Sample.lost_match]
              Fixture.capitalised_match [])
    as (_ & Hw & _ & _ & Hr & _ & _ & Hn & Hk).
  - intros k [t Ht]. unfold Fixture.capitalised_match in Ht. cbn [teams] in Ht.
    destruct (decide (k = "Red")) as [->|H1]; [reflexivity|].
    rewrite lookup_insert_ne in Ht by congruence.
    destruct (decide (k = "Blue")) as [->|H2]; [reflexivity|].
    rewrite lookup_insert_ne in Ht by congruence.
    rewrite lookup_empty in Ht. discriminate.
  - destruct (Hk (Sample.player "a" "Red" "Jett" 9 4) eq_refl) as (Hkills & _).
    repeat split; assumption.
Defined.

(** ** Failed, null and expired responses *)

Lemma cache_get_record_request key url w :
  cache_get key (record_request url w) = cache_get key w.
Proof. reflexivity. Qed.

(** X8: an error is never cached.  A request that fails has been sent
    to the network, leaves the cache as it was, and an identical request
    made at the same time is sent again and fails again. *)
Theorem failed_request_not_cached `{Host} (this : RiotAPIService) url key w e w1 :
  makeRequest this url key w = (Err e, w1) ->
  w1 = record_request url w /\
  cache w1 = cache w /\
  http_get url (apiKey this) (now w) = Err e /\
  makeRequest this url key w1 = (Err e, record_request url w1).
Proof.
  unfold makeRequest, makeRequestAt.
  destruct (truthy_key key) as [k|] eqn:Hk.
  - destruct (cache_get k w) as [d|] eqn:Hc; [destruct (truthy d) eqn:Ht|];
      try discriminate;
      cbn [now record_request];
      destruct (http_get url (apiKey this) (now w)) eqn:Hg; intros [= <- <-];
      rewrite cache_get_record_request, Hc, ?Ht;
      cbn [now record_request]; rewrite Hg; auto.
  - cbn [now record_request].
    destruct (http_get url (apiKey this) (now w)) eqn:Hg; intros [= <- <-].
    cbn [now record_request]. rewrite Hg. auto.
Qed.

Lemma failed_request_not_cached_witness :
  let r := @getMatchDetails Sample.host Sample.service "m2" "europe" Sample.start in
  fst r = Err (RequestFailed 404 "Data not found") /\
  cache (snd r) = cache Sample.start /\
  requests (snd (@getMatchDetails Sample.host Sample.service "m2" "europe" (snd r)))
    = [ Sample.europe +:+ "/val/match/v1/matches/m2";
        Sample.europe +:+ "/val/match/v1/matches/m2" ].
Proof.
  intros r.
  assert (E : r = (Err (RequestFailed 404 "Data not found"), snd r))
    by (vm_compute; reflexivity).
  destruct (failed_request_not_cached (H:=Sample.host) Sample.service _ _ _ _ _ E)
    as (_ & Hc & _ & Hagain).
  split; [rewrite E; reflexivity|]. split; [exact Hc|].
  change (@getMatchDetails Sample.host Sample.service "m2" "europe" (snd r))
    with (@makeRequest Sample.host Sample.service (matchDetailsUrl "m2" "europe")
            (Some ("match:" +:+ "m2")) (snd r)).
  rewrite Hagain. vm_compute. reflexivity.
Defined.



(** X10: an entry is not served once the TTL of 300 s has passed since
    it was stored: the next request under its key goes to the network
    and is answered with what the upstream says then. *)
Theorem expired_entry_refetched `{Host} (this : RiotAPIService)
    url url' key w d w1 t :
  key <> "" ->
  makeRequest this url (Some key) w = (Ok d, w1) ->
  requests w1 <> requests w ->
  (now w + stdTTL * 1000 < t)%N ->
  cache_get key (at_time t w1) = None /\
  fst (makeRequest this url' (Some key) (at_time t w1))
    = http_get url' (apiKey this) t /\
  requests (snd (makeRequest this url' (Some key) (at_time t w1)))
    = (requests w1 ++ [url'])%list.
Proof.
  intros Hk H1 Hnet Ht.
  destruct (makeRequest_ok_inv this _ _ _ _ _ Hk H1) as [(-> & _)| ->];
    [congruence|].
  assert (Hc : cache_get key (at_time t (cache_set key d (record_request url w))) = None).
  { unfold cache_get. cbn [cache now at_time cache_set record_request].
    rewrite lookup_insert_eq.
    destruct (N.ltb_spec (now w + stdTTL * 1000) t); [reflexivity|lia]. }
  split; [exact Hc|].
  unfold makeRequest, makeRequestAt. rewrite (truthy_key_nonempty _ Hk), Hc.
  cbn [now record_request at_time].
  destruct (http_get url' (apiKey this) t); split; reflexivity.
Qed.

Lemma expired_entry_refetched_witness :
  let first := @getMatchHistory Sample.host Sample.service "c" "europe" 20 Sample.start in
  let late := @getMatchHistory Sample.host Sample.service "c" "europe" 20
                (at_time 301001 (snd first)) in
  length (requests (snd first)) = 1%nat /\
  length (requests (snd late)) = 2%nat.
Proof.
  intros first late.
  assert (E : first = (Ok (Sample.entries ["m1"; "m3"; "m4"]), snd first))
    by (vm_compute; reflexivity).
  split; [vm_compute; reflexivity|].
  destruct (expired_entry_refetched (H:=Sample.host) Sample.service
              _ (matchHistoryUrl "c" "europe") (matchHistoryKey "c" 20)
              Sample.start _ (snd first) 301001%N ltac:(discriminate) E)
    as (_ & _ & Hr).
  - vm_compute. discriminate.
  - vm_compute. reflexivity.
  - subst late. unfold getMatchHistory. rewrite Hr, length_app.
    vm_compute. reflexivity.
Defined.

(** ** Cache keys of the other operations *)

Lemma append_assoc (a b c : string) : (a +:+ b) +:+ c = a +:+ (b +:+ c).
Proof.
  induction a as [|x a IH]; [reflexivity|].
  rewrite !append_cons, IH. reflexivity.
Qed.

(** X11: the key "account:puuid:ID" is both that of the account with
    puuid ID and that of the player named "puuid" with tag ID.  After a
    lookup of that player, a lookup by puuid within the TTL is answered
    with that player's account and no request is made. *)
Theorem account_by_puuid_collides `{Host} (this : RiotAPIService)
    id region region' w d w1 t :
  getAccountByRiotId this "puuid" id region w = (Ok d, w1) ->
  truthy d = true ->
  requests w1 <> requests w ->
  (now w <= t <= now w + stdTTL * 1000)%N ->
  getAccountByPuuid this id region' (at_time t w1) = (Ok d, at_time t w1).
Proof.
  intros H1 Hd Hnet Ht.
  unfold getAccountByRiotId in H1. unfold getAccountByPuuid.
  change ("account:" +:+ "puuid" +:+ ":" +:+ id) with ("account:puuid:" +:+ id) in H1.
  refine (proj2 (makeRequest_twice this _ _ _ _ _ _ _ _ H1 Hd Ht) Hnet).
  discriminate.
Qed.

Lemma account_by_puuid_collides_witness :
  let first := @getAccountByRiotId Fixture.host Sample.service "puuid" "a" "europe"
                 Sample.start in
  fst first = Ok (Fixture.account "p" "puuid" "a") /\
  fst (@getAccountByPuuid Fixture.host Sample.service "a" "europe" (snd first))
    = Ok (Fixture.account "p" "puuid" "a") /\
  fst (@getAccountByPuuid Fixture.host Sample.service "a" "europe" Sample.start)
    = Ok (Fixture.account "a" "Ann A" "EUW").
Proof.
  intros first.
  assert (E : first = (Ok (Fixture.account "p" "puuid" "a"), snd first))
    by (vm_compute; reflexivity).
  split; [rewrite E; reflexivity|]. split; [|vm_compute; reflexivity].
  change (snd first) with (at_time 1000 (snd first)).
  rewrite (account_by_puuid_collides (H:=Fixture.host) Sample.service
             "a" "europe" "europe" Sample.start _ (snd first) 1000%N E).
  - reflexivity.
  - reflexivity.
  - vm_compute. discriminate.
  - vm_compute. split; discriminate.
Defined.

Lemma accountByRiotIdKey_colon g x t :
  accountByRiotIdKey (g +:+ ":" +:+ x) t = accountByRiotIdKey g (x +:+ ":" +:+ t).
Proof.
  unfold accountByRiotIdKey. f_equal.
  rewrite !append_assoc. reflexivity.
Qed.

(** X12: game name and tag line are joined by a colon without escaping,
    so the players "G:X"#"T" and "G"#"X:T" have one cache key: after a
    lookup of the first, a lookup of the second within the TTL is
    answered with the first one's account and no request is made. *)
Theorem account_key_colon_ambiguous `{Host} (this : RiotAPIService)
    g x tag region region' w d w1 t :
  getAccountByRiotId this (g +:+ ":" +:+ x) tag region w = (Ok d, w1) ->
  truthy d = true ->
  requests w1 <> requests w ->
  (now w <= t <= now w + stdTTL * 1000)%N ->
  getAccountByRiotId this g (x +:+ ":" +:+ tag) region' (at_time t w1)
    = (Ok d, at_time t w1).
Proof.
  intros H1 Hd Hnet Ht.
  unfold getAccountByRiotId in *.
  fold (accountByRiotIdKey (g +:+ ":" +:+ x) tag) in H1.
  fold (accountByRiotIdKey g (x +:+ ":" +:+ tag)).
  rewrite accountByRiotIdKey_colon in H1.
  refine (proj2 (makeRequest_twice this _ _ _ _ _ _ _ _ H1 Hd Ht) Hnet).
  discriminate.
Qed.

Lemma account_key_colon_ambiguous_witness :
  let first := @getAccountByRiotId Fixture.host Sample.service "x:y" "z" "europe"
                 Sample.start in
  fst first = Ok (Fixture.account "xy" "x:y" "z") /\
  fst (@getAccountByRiotId Fixture.host Sample.service "x" "y:z" "europe" (snd first))
    = Ok (Fixture.account "xy" "x:y" "z") /\
  fst (@getAccountByRiotId Fixture.host Sample.service "x" "y:z" "europe" Sample.start)
    = Ok (Fixture.account "yz" "x" "y:z").
Proof.
  intros first.
  assert (E : first = (Ok (Fixture.account "xy" "x:y" "z"), snd first))
    by (vm_compute; reflexivity).
  split; [rewrite E; reflexivity|]. split; [|vm_compute; reflexivity].
  assert (Hnet : requests (snd first) <> requests Sample.start)
    by (vm_compute; discriminate).
  assert (Ht : (now Sample.start <= 1000 <= now Sample.start + stdTTL * 1000)%N)
    by (vm_compute; split; discriminate).
  pose proof (account_key_colon_ambiguous (H:=Fixture.host) Sample.service
                "x" "y" "z" "europe" "europe" Sample.start _ (snd first) 1000%N
                E eq_refl Hnet Ht) as Hx.
  change ("y" +:+ ":" +:+ "z") with "y:z" in Hx.
  change (at_time 1000 (snd first)) with (snd first) in Hx.
  rewrite Hx. reflexivity.
Defined.

(** X14: the game content of every platform region is cached under the
    one key "content": after a content request that returned a non-null
    body, a request for any region within the TTL gets that body and no
    request is made. *)
Theorem content_shared_across_regions `{Host} (this : RiotAPIService)
    region region' w d w1 t :
  getContent this region w = (Ok d, w1) ->
  truthy d = true ->
  requests w1 <> requests w ->
  (now w <= t <= now w + stdTTL * 1000)%N ->
  getContent this region' (at_time t w1) = (Ok d, at_time t w1).
Proof.
  intros H1 Hd Hnet Ht. unfold getContent in *.
  refine (proj2 (makeRequest_twice this _ _ _ _ _ _ _ _ H1 Hd Ht) Hnet).
  discriminate.
Qed.

Lemma content_shared_across_regions_witness :
  let first := @getContent Fixture.host Sample.service "eu" Sample.start in
  fst first = Ok (Sample.entries ["eu"]) /\
  fst (@getContent Fixture.host Sample.service "na" (snd first))
    = Ok (Sample.entries ["eu"]) /\
  fst (@getContent Fixture.host Sample.service "na" Sample.start)
    = Ok (Sample.entries ["na"]).
Proof.
  intros first.
  assert (E : first = (Ok (Sample.entries ["eu"]), snd first))
    by (vm_compute; reflexivity).
  split; [rewrite E; reflexivity|]. split; [|vm_compute; reflexivity].
  change (snd first) with (at_time 1000 (snd first)).
  rewrite (content_shared_across_regions (H:=Fixture.host) Sample.service
             "eu" "na" Sample.start _ (snd first) 1000%N E).
  - reflexivity.
  - reflexivity.
  - vm_compute. discriminate.
  - vm_compute. split; discriminate.
Defined.

Lemma append_String_assoc a c b d :
  a +:+ String c (b +:+ d) = (a +:+ String c b) +:+ d.
Proof. rewrite append_assoc, append_cons. reflexivity. Qed.

Lemma competitiveKey_inj id id' s s' e e' :
  competitiveKey id s e = competitiveKey id' s' e' ->
  id = id' /\ s = s' /\ e = e'.
Proof.
  unfold competitiveKey. intros E.
  rewrite !append_cons, !append_nil in E.
  repeat match type of E with String _ _ = String _ _ => injection E as E end.
  rewrite (append_String_assoc id _ (pretty s)),
          (append_String_assoc id' _ (pretty s')) in E.
  destruct (split_last_colon (id +:+ String ":" (pretty s))
              (id' +:+ String ":" (pretty s')) (pretty e) (pretty e')
              (pretty_Z_colon e) (pretty_Z_colon e') E) as [E1 He].
  destruct (split_last_colon id id' (pretty s) (pretty s')
              (pretty_Z_colon s) (pretty_Z_colon s') E1) as [-> Hs].
  repeat split; [exact (inj pretty _ _ Hs)|exact (inj pretty _ _ He)].
Qed.

(** X15: the cache key of a competitive-updates request holds the
    puuid, the start and the end, and neither the queue nor the region.
    Requests that differ in the puuid, the start or the end have
    different keys; after a request that returned a non-null body, a
    request for another queue or region within the TTL gets the body of
    the first and no request is made. *)
Theorem competitive_key_without_queue `{Host} (this : RiotAPIService) :
  (forall id id' s s' e e',
     competitiveKey id s e = competitiveKey id' s' e' ->
     id = id' /\ s = s' /\ e = e') /\
  (forall id region region' queue queue' s e w d w1 t,
     getCompetitiveUpdates this id region queue s e w = (Ok d, w1) ->
     truthy d = true ->
     requests w1 <> requests w ->
     (now w <= t <= now w + stdTTL * 1000)%N ->
     getCompetitiveUpdates this id region' queue' s e (at_time t w1)
       = (Ok d, at_time t w1)).
Proof.
  split; [apply competitiveKey_inj|].
  intros id region region' queue queue' s e w d w1 t H1 Hd Hnet Ht.
  unfold getCompetitiveUpdates in *.
  refine (proj2 (makeRequest_twice this _ _ _ _ _ _ _ _ H1 Hd Ht) Hnet).
  discriminate.
Qed.

Lemma competitive_key_without_queue_witness :
  let first := @getCompetitiveUpdates Fixture.host Sample.service
                 "a" "europe" "competitive" 0 20 Sample.start in
  fst first = Ok (Sample.entries ["m1"]) /\
  fst (@getCompetitiveUpdates Fixture.host Sample.service
         "a" "europe" "unrated" 0 20 (snd first)) = Ok (Sample.entries ["m1"]) /\
  fst (@getCompetitiveUpdates Fixture.host Sample.service
         "a" "europe" "unrated" 0 20 Sample.start) = Ok (Sample.entries ["m3"]).
Proof.
  intros first.
  assert (E : first = (Ok (Sample.entries ["m1"]), snd first))
    by (vm_compute; reflexivity).
  split; [rewrite E; reflexivity|]. split; [|vm_compute; reflexivity].
  change (snd first) with (at_time 1000 (snd first)).
  rewrite (proj2 (competitive_key_without_queue (H:=Fixture.host) Sample.service)
             "a" "europe" "europe" "competitive" "unrated" 0 20
             Sample.start _ (snd first) 1000%N E).
  - reflexivity.
  - reflexivity.
  - vm_compute. discriminate.
  - vm_compute. split; discriminate.
Defined.

(** ** URLs of the account lookup *)

Lemma N_of_ascii_lt c : (N_of_ascii c < 256)%N.
Proof. apply N_ascii_bounded. Qed.

Lemma hex_value_digit n : (n < 16)%N -> hex_value (hex_digit n) = n.
Proof.
  intros Hn. unfold hex_value, hex_digit.
  destruct (N.ltb_spec n 10).
  - rewrite N_ascii_embedding by lia.
    destruct (N.ltb_spec (48 + n) 58); lia.
  - rewrite N_ascii_embedding by lia.
    destruct (N.ltb_spec (55 + n) 58); lia.
Qed.

Lemma hex_digit_code n :
  (n < 16)%N ->
  (48 <= N_of_ascii (hex_digit n) <= 57)%N \/ (65 <= N_of_ascii (hex_digit n) <= 70)%N.
Proof.
  intros Hn. unfold hex_digit.
  destruct (N.ltb_spec n 10); rewrite N_ascii_embedding by lia; lia.
Qed.

Lemma unreserved_not_percent c : unreserved c = true -> c <> "%"%char.
Proof. intros Hu ->. vm_compute in Hu. discriminate. Qed.

Lemma unreserved_not_slash c : unreserved c = true -> c <> "/"%char.
Proof. intros Hu ->. vm_compute in Hu. discriminate. Qed.

Lemma hex_digit_not_slash n : (n < 16)%N -> hex_digit n <> "/"%char.
Proof.
  intros Hn E. pose proof (hex_digit_code n Hn) as Hc.
  rewrite E in Hc. vm_compute in Hc. destruct Hc as [[H1 _]|[H1 _]]; apply H1; reflexivity.
Qed.

Lemma ascii_split_lt c :
  (N_of_ascii c / 16 < 16)%N /\ (N_of_ascii c mod 16 < 16)%N.
Proof.
  pose proof (N_of_ascii_lt c). split.
  - apply N.Div0.div_lt_upper_bound. lia.
  - apply N.mod_lt. lia.
Qed.

(** The encoding has no slash in it. *)
Lemma encodeURIComponent_no_slash s :
  has_char "/" (encodeURIComponent s) = false.
Proof.
  induction s as [|c s IH]; [reflexivity|].
  cbn [encodeURIComponent].
  destruct (unreserved c) eqn:Hu; cbn [has_char].
  - rewrite bool_decide_eq_false_2 by (apply unreserved_not_slash, Hu). exact IH.
  - destruct (ascii_split_lt c) as [H1 H2].
    rewrite (bool_decide_eq_false_2 ("%"%char = "/"%char)) by discriminate.
    rewrite !bool_decide_eq_false_2 by (apply hex_digit_not_slash; assumption).
    exact IH.
Qed.

(** Different strings have different encodings. *)
Lemma encodeURIComponent_inj s1 : forall s2,
  encodeURIComponent s1 = encodeURIComponent s2 -> s1 = s2.
Proof.
  induction s1 as [|c1 s1 IH]; intros [|c2 s2]; cbn [encodeURIComponent].
  - reflexivity.
  - destruct (unreserved c2); discriminate.
  - destruct (unreserved c1); discriminate.
  - destruct (unreserved c1) eqn:U1, (unreserved c2) eqn:U2.
    + intros [= -> E]. f_equal. apply IH, E.
    + intros [= -> _]. exfalso. exact (unreserved_not_percent _ U1 eq_refl).
    + intros [= <- _]. exfalso. exact (unreserved_not_percent _ U2 eq_refl).
    + intros [= Hh Hl E].
      destruct (ascii_split_lt c1) as [A1 B1], (ascii_split_lt c2) as [A2 B2].
      apply (f_equal hex_value) in Hh, Hl.
      rewrite !hex_value_digit in Hh, Hl by assumption.
      assert (Hn : N_of_ascii c1 = N_of_ascii c2).
      { rewrite (N.div_mod (N_of_ascii c1) 16), (N.div_mod (N_of_ascii c2) 16) by lia.
        rewrite Hh, Hl. reflexivity. }
      f_equal; [|apply IH, E].
      rewrite <- (ascii_N_embedding c1), <- (ascii_N_embedding c2), Hn. reflexivity.
Qed.

Lemma append_inv_head p a b : p +:+ a = p +:+ b -> a = b.
Proof.
  induction p as [|c p IH]; [auto|].
  rewrite !append_cons. intros [= E]. auto.
Qed.

(** A string is split in one way only at its first slash. *)
Lemma split_first_slash a : forall a' b b',
  has_char "/" a = false -> has_char "/" a' = false ->
  a +:+ String "/" b = a' +:+ String "/" b' ->
  a = a' /\ b = b'.
Proof.
  induction a as [|c a IH]; intros [|c' a'] b b' H1 H2 E;
    repeat (rewrite append_nil in E || rewrite append_cons in E).
  - injection E as ->. auto.
  - injection E as <- _. cbn in H2.
    rewrite bool_decide_eq_true_2 in H2 by reflexivity. discriminate.
  - injection E as -> _. cbn in H1.
    rewrite bool_decide_eq_true_2 in H1 by reflexivity. discriminate.
  - injection E as -> E. cbn in H1, H2.
    apply orb_false_elim in H1 as [_ H1]. apply orb_false_elim in H2 as [_ H2].
    destruct (IH _ _ _ H1 H2 E) as [-> ->]. auto.
Qed.

(** X13: the URL of an account lookup tells the players apart: in one
    region, lookups of different game names or tag lines have different
    URLs, because both parts are percent-encoded before they are joined
    by a slash.  (The cache key, joined by a colon without encoding,
    does not.) *)
Theorem accountByRiotIdUrl_inj `{Host} (this : RiotAPIService)
    region g t g' t' :
  (forall w,
     getAccountByRiotId this g t region w
       = makeRequest this (accountByRiotIdUrl g t region)
           (Some (accountByRiotIdKey g t)) w) /\
  (accountByRiotIdUrl g t region = accountByRiotIdUrl g' t' region ->
   g = g' /\ t = t').
Proof.
  split; [reflexivity|].
  unfold accountByRiotIdUrl. intros E.
  apply append_inv_head, append_inv_head in E.
  change ("/" +:+ ?x) with (String "/" x) in E.
  destruct (split_first_slash _ _ _ _ (encodeURIComponent_no_slash g)
              (encodeURIComponent_no_slash g') E) as [Eg Et].
  split; apply encodeURIComponent_inj; assumption.
Qed.

Lemma accountByRiotIdUrl_inj_witness :
  accountByRiotIdKey "x:y" "z" = accountByRiotIdKey "x" "y:z" /\
  accountByRiotIdUrl "x:y" "z" "europe" <> accountByRiotIdUrl "x" "y:z" "europe".
Proof.
  split; [reflexivity|]. intros E.
  destruct (proj2 (accountByRiotIdUrl_inj (H:=Sample.host) Sample.service
                     "europe" "x:y" "z" "x" "y:z") E) as [Hg _].
  discriminate.
Defined.

(** ** The fan-out of the match details *)

Section FanOutRequests.
Context `{Host}.
Variable this : RiotAPIService.

Lemma getMatchDetailsAt_requests issued mid region w :
  requests (snd (getMatchDetailsAt this issued mid region w)) =
  (requests w ++
   (if served ("match:" +:+ mid) issued then [] else [matchDetailsUrl mid region]))%list.
Proof.
  unfold getMatchDetailsAt, makeRequestAt, served.
  rewrite truthy_key_nonempty by discriminate.
  destruct (cache_get _ issued) as [d|]; [destruct (truthy d)|]; cbn.
  - rewrite app_nil_r. reflexivity.
  - destruct (http_get _ _ _); reflexivity.
  - destruct (http_get _ _ _); reflexivity.
Qed.

Lemma settle_all_cons {A} (p : M A) ps w :
  settle_all (p :: ps) w =
  (fst (p w) :: fst (settle_all ps (snd (p w))), snd (settle_all ps (snd (p w)))).
Proof.
  cbn. destruct (p w) as [r w1]. cbn. destruct (settle_all ps w1). reflexivity.
Qed.

(** The requests a fan-out sends. *)
Lemma detail_fetches_requests issued region mids : forall w,
  requests (snd (settle_all
                   (List.map (fun mid => getMatchDetailsAt this issued mid region) mids) w))
  = (requests w ++ detail_requests issued region mids)%list.
Proof.
  unfold detail_requests.
  induction mids as [|mid mids IH]; intros w.
  - cbn. rewrite app_nil_r. reflexivity.
  - cbn [List.map]. rewrite settle_all_cons. cbn [snd].
    rewrite IH, getMatchDetailsAt_requests. cbn [List.filter].
    destruct (served _ issued); cbn [negb List.map].
    + rewrite app_nil_r. reflexivity.
    + rewrite <- app_assoc. reflexivity.
Qed.
End FanOutRequests.

(** X16: when the history cannot be had, no detail is requested: an
    error of the history request is passed on as it is, and a body
    without a [history] array (a null body included) makes the call fail
    with a TypeError; in both cases the world is the one the history
    request left. *)
Theorem getRecentMatchesWithDetails_no_history `{Host} (this : RiotAPIService)
    id region count w :
  (forall e w1,
     getMatchHistory this id region count w = (Err e, w1) ->
     getRecentMatchesWithDetails this id region count w = (Err e, w1)) /\
  (forall d w1,
     getMatchHistory this id region count w = (Ok d, w1) ->
     (forall h, d <> DMatchlist (Some h)) ->
     getRecentMatchesWithDetails this id region count w = (Err TypeError, w1)).
Proof.
  split.
  - intros e w1 H1. unfold getRecentMatchesWithDetails, catch, bind.
    rewrite H1. reflexivity.
  - intros d w1 H1 Hd. unfold getRecentMatchesWithDetails, catch, bind, lift.
    rewrite H1.
    destruct d as [|a|[h|]|m]; try reflexivity.
    exfalso. exact (Hd h eq_refl).
Qed.

Lemma getRecentMatchesWithDetails_no_history_witness :
  let gone := @getRecentMatchesWithDetails Fixture.host Sample.service
                "g" "europe" 10 Sample.start in
  let null := @getRecentMatchesWithDetails Fixture.host Sample.service
                "z" "europe" 10 Sample.start in
  fst gone = Err (RequestFailed 404 "Data not found") /\
  length (requests (snd gone)) = 1%nat /\
  fst null = Err TypeError /\
  length (requests (snd null)) = 1%nat.
Proof.
  intros gone null.
  destruct (getRecentMatchesWithDetails_no_history (H:=Fixture.host) Sample.service
              "g" "europe" 10 Sample.start) as [Hgone _].
  destruct (getRecentMatchesWithDetails_no_history (H:=Fixture.host) Sample.service
              "z" "europe" 10 Sample.start) as [_ Hnull].
  specialize (Hgone (RequestFailed 404 "Data not found")
                (snd (@getMatchHistory Fixture.host Sample.service
                        "g" "europe" 10 Sample.start))
                ltac:(vm_compute; reflexivity)).
  specialize (Hnull DNull
                (snd (@getMatchHistory Fixture.host Sample.service
                        "z" "europe" 10 Sample.start))
                ltac:(vm_compute; reflexivity) ltac:(discriminate)).
  subst gone null. rewrite Hgone, Hnull. vm_compute. repeat split.
Defined.

(** X17: the fan-out sends a request for every entry of the history
    that the cache does not answer when it starts, in the order of the
    history; a failure among them stops none of the others, and an id
    that occurs twice is requested twice. *)
Theorem getRecentMatchesWithDetails_requests `{Host} (this : RiotAPIService)
    id region count w d w1 h :
  getMatchHistory this id region count w = (Ok d, w1) ->
  history_of d = Ok h ->
  requests (snd (getRecentMatchesWithDetails this id region count w))
    = (requests w1 ++ detail_requests w1 region (List.map matchId h))%list.
Proof.
  intros H1 H2.
  destruct (settle_all (detail_fetches this w1 region h) w1) as [rs w2] eqn:H3.
  rewrite (getRecentMatchesWithDetails_unfold this _ _ _ _ _ _ _ _ _ H1 H2 H3).
  cbn [snd].
  pose proof (detail_fetches_requests this w1 region (List.map matchId h) w1) as Hr.
  rewrite List.map_map in Hr. fold (detail_fetches this w1 region h) in Hr.
  rewrite H3 in Hr. exact Hr.
Qed.

Lemma getRecentMatchesWithDetails_requests_witness :
  let r := @getRecentMatchesWithDetails Fixture.host Sample.service
             "l" "europe" 10 Sample.start in
  fst r = Err (RequestFailed 404 "Data not found") /\
  List.map (fun url => substring 54 2 url) (List.tl (requests (snd r)))
    = ["m1"; "m3"; "m4"; "m1"; "m2"; "m4"; "m3"].
Proof.
  intros r. split; [vm_compute; reflexivity|].
  subst r.
  rewrite (getRecentMatchesWithDetails_requests (H:=Fixture.host) Sample.service
             "l" "europe" 10 Sample.start
             (Sample.entries ["m1"; "m3"; "m4"; "m1"; "m2"; "m4"; "m3"])
             (snd (@getMatchHistory Fixture.host Sample.service
                     "l" "europe" 10 Sample.start))
             _ ltac:(vm_compute; reflexivity) ltac:(reflexivity)).
  vm_compute. reflexivity.
Defined.

(** ** The profile with matches *)

Section ProfileFanOut.
Context `{Host}.
Variable this : RiotAPIService.

(** A guarded fetch settles with the body, or with [null]. *)
Lemma guarded_fetch issued mid region w :
  catch (getMatchDetailsAt this issued mid region) (fun e => ret DNull) w
  = (Ok (body_or_null (fst (getMatchDetailsAt this issued mid region w))),
     snd (getMatchDetailsAt this issued mid region w)).
Proof.
  unfold catch. destruct (getMatchDetailsAt this issued mid region w) as [[d|e] w'];
    reflexivity.
Qed.

Lemma settle_all_guarded issued region mids : forall w,
  settle_all (guarded_fetches this issued region mids) w =
  (List.map (fun r => Ok (body_or_null r))
     (fst (settle_all
             (List.map (fun mid => getMatchDetailsAt this issued mid region) mids) w)),
   snd (settle_all
          (List.map (fun mid => getMatchDetailsAt this issued mid region) mids) w)).
Proof.
  unfold guarded_fetches.
  induction mids as [|mid mids IH]; intros w; [reflexivity|].
  cbn [List.map]. rewrite !settle_all_cons, guarded_fetch. cbn [fst snd List.map].
  rewrite IH. reflexivity.
Qed.

Lemma as_matches_length ds : forall ms, as_matches ds = Ok ms -> length ms = length ds.
Proof.
  induction ds as [|d ds IH]; intros ms; cbn.
  - intros [= <-]. reflexivity.
  - destruct (as_match d); [|discriminate].
    destruct (as_matches ds) as [ms'|]; [|discriminate].
    intros [= <-]. cbn. f_equal. apply IH. reflexivity.
Qed.

(** What [getPlayerProfile] does once the account and a non-empty
    history are there. *)
Lemma getPlayerProfile_unfold gameName tagLine region platformRegion
    w a w1 d w2 h rs w3 :
  getAccountByRiotId this gameName tagLine region w = (Ok (DAccount a), w1) ->
  getMatchHistory this (acc_puuid a) region 5 w1 = (Ok d, w2) ->
  nonempty_history d = Some h ->
  settle_all (detail_fetches this w2 region (take 5 h)) w2 = (rs, w3) ->
  getPlayerProfile this gameName tagLine region platformRegion w =
  match fetched_bodies rs with
  | [] => (Ok {| account := a; rank := None; statistics := Literal zeroStats;
                 lastUpdated := now w3 |}, w3)
  | _ :: _ =>
      match as_matches (fetched_bodies rs) with
      | Ok ms =>
          (Ok {| account := a; rank := None;
                 statistics :=
                   Computed (calculatePlayerStats toStringLarge ms (acc_puuid a));
                 lastUpdated := now w3 |}, w3)
      | Err e => (Err e, w3)
      end
  end.
Proof.
  intros Hacc Hhist Hne Hset.
  unfold getPlayerProfile, catch at 1, bind at 1. rewrite Hacc.
  unfold catch at 1, bind at 1, bind at 1, lift at 1. cbn [as_account].
  unfold bind at 1. rewrite Hhist, Hne.
  unfold bind at 1, promise_all.
  fold (guarded_fetches this w2 region (List.map matchId (take 5 h))).
  rewrite settle_all_guarded, List.map_map.
  fold (detail_fetches this w2 region (take 5 h)). rewrite Hset. cbn [fst snd].
  rewrite <- List.map_map, collect_map_Ok. unfold ret at 1.
  fold (fetched_bodies rs).
  destruct (fetched_bodies rs) as [|b bs] eqn:Hb.
  - unfold bind, ret, lift, throw. cbn. destruct a; reflexivity.
  - unfold bind, ret, lift, throw, calculatePlayerStats_call. cbn [as_account].
    destruct (as_matches (b :: bs)) as [ms|e]; [|reflexivity].
    unfold ret. destruct a; reflexivity.
Qed.
End ProfileFanOut.

(** X18: with the account and a non-empty history at hand,
    [getPlayerProfile] fetches the details of the first five entries and
    computes the statistics over the bodies that came back and are not
    null: a fetch that fails is left out and fails nothing.  The profile
    request does fail, with a TypeError, when a body that came back is
    not a match record. *)
Theorem getPlayerProfile_partial `{Host} (this : RiotAPIService)
    gameName tagLine region platformRegion w a w1 d w2 h rs w3 :
  getAccountByRiotId this gameName tagLine region w = (Ok (DAccount a), w1) ->
  getMatchHistory this (acc_puuid a) region 5 w1 = (Ok d, w2) ->
  nonempty_history d = Some h ->
  settle_all (detail_fetches this w2 region (take 5 h)) w2 = (rs, w3) ->
  (forall ms,
     as_matches (fetched_bodies rs) = Ok ms ->
     getPlayerProfile this gameName tagLine region platformRegion w =
     (Ok {| account := a; rank := None;
            statistics :=
              match ms with
              | [] => Literal zeroStats
              | _ :: _ => Computed (calculatePlayerStats toStringLarge ms (acc_puuid a))
              end;
            lastUpdated := now w3 |}, w3) /\
     length ms = length (fetched_bodies rs) /\
     (length ms <= 5)%nat) /\
  (forall e,
     as_matches (fetched_bodies rs) = Err e ->
     getPlayerProfile this gameName tagLine region platformRegion w = (Err e, w3)).
Proof.
  intros Hacc Hhist Hne Hset.
  pose proof (getPlayerProfile_unfold this _ _ _ platformRegion _ _ _ _ _ _ _ _
                Hacc Hhist Hne Hset) as E.
  assert (Hlen : (length (fetched_bodies rs) <= 5)%nat).
  { unfold fetched_bodies.
    etransitivity; [apply List.filter_length_le|].
    rewrite length_map.
    pose proof (settle_all_length (detail_fetches this w2 region (take 5 h)) w2) as L.
    rewrite Hset in L. cbn in L. rewrite L. unfold detail_fetches.
    rewrite length_map, length_take. lia. }
  split.
  - intros ms Hms. pose proof (as_matches_length _ _ Hms) as L.
    rewrite E, Hms. split; [|split; [exact L|lia]].
    destruct (fetched_bodies rs) as [|b bs]; destruct ms as [|m ms'];
      try discriminate; reflexivity.
  - intros e He. rewrite E, He.
    destruct (fetched_bodies rs) as [|b bs]; [discriminate|reflexivity].
Qed.

Lemma getPlayerProfile_partial_witness :
  exists w3,
    @getPlayerProfile Sample.host Sample.service "Ann A" "EUW" "europe" "eu" Sample.start
    = (Ok {| account := {| acc_puuid := "a"; acc_gameName := "Ann A";
                           acc_tagLine := "EUW" |};
             rank := None;
             statistics :=
               Computed (calculatePlayerStats Sample.runtime
                           [Sample.won_match; Sample.lost_match] "a");
             lastUpdated := now w3 |}, w3).
Proof.
  eexists.
  refine (proj1 (proj1
    (getPlayerProfile_partial (H:=Sample.host) Sample.service
       "Ann A" "EUW" "europe" "eu" Sample.start
       {| acc_puuid := "a"; acc_gameName := "Ann A"; acc_tagLine := "EUW" |}
       _ (Sample.entries ["m1"; "m2"; "m4"]) _
       [ {| matchId := "m1" |}; {| matchId := "m2" |}; {| matchId := "m4" |} ]
       [ Ok (DMatch Sample.won_match); Err (RequestFailed 404 "Data not found");
         Ok (DMatch Sample.lost_match) ] _ _ _ _ _)
    [Sample.won_match; Sample.lost_match] _)).
  - vm_compute. reflexivity.
  - vm_compute. reflexivity.
  - reflexivity.
  - vm_compute. reflexivity.
  - reflexivity.
Defined.

Section ProfileCases.
Context `{Host}.
Variable this : RiotAPIService.

Lemma getPlayerProfile_no_account gameName tagLine region platformRegion w e w1 :
  getAccountByRiotId this gameName tagLine region w = (Err e, w1) ->
  getPlayerProfile this gameName tagLine region platformRegion w = (Err e, w1).
Proof.
  intros Hacc. unfold getPlayerProfile, catch, bind, throw. rewrite Hacc. reflexivity.
Qed.

(** A null body of the account lookup: the read of [account.puuid] in
    the inner [try] is caught, the one that builds the profile is not. *)
Lemma getPlayerProfile_null_account gameName tagLine region platformRegion w w1 :
  getAccountByRiotId this gameName tagLine region w = (Ok DNull, w1) ->
  getPlayerProfile this gameName tagLine region platformRegion w = (Err TypeError, w1).
Proof.
  intros Hacc. unfold getPlayerProfile, catch, bind, throw, lift, ret.
  rewrite Hacc. reflexivity.
Qed.

Lemma getPlayerProfile_fallback gameName tagLine region platformRegion w a w1 :
  getAccountByRiotId this gameName tagLine region w = (Ok (DAccount a), w1) ->
  match getMatchHistory this (acc_puuid a) region 5 w1 with
  | (Ok d, _) => nonempty_history d = None
  | (Err _, _) => True
  end ->
  getPlayerProfile this gameName tagLine region platformRegion w =
  (Ok {| account := a; rank := None; statistics := Literal zeroStats;
         lastUpdated := now (snd (getMatchHistory this (acc_puuid a) region 5 w1)) |},
   snd (getMatchHistory this (acc_puuid a) region 5 w1)).
Proof.
  intros Hacc Hh. unfold getPlayerProfile, catch, bind, lift, ret.
  rewrite Hacc. cbn [as_account].
  destruct (getMatchHistory this (acc_puuid a) region 5 w1) as [[d|e] w2].
  - rewrite Hh. destruct a; reflexivity.
  - destruct a; reflexivity.
Qed.

Lemma makeRequest_requests_le url key w :
  (length (requests (snd (makeRequest this url key w))) <= S (length (requests w)))%nat.
Proof.
  unfold makeRequest.
  destruct (makeRequestAt_requests this w url key w) as [-> | ->];
    rewrite ?length_app; cbn; lia.
Qed.

Lemma detail_requests_length issued region mids :
  (length (detail_requests issued region mids) <= length mids)%nat.
Proof.
  unfold detail_requests. rewrite length_map. apply List.filter_length_le.
Qed.
End ProfileCases.

(** X19: when the account lookup fails or returns an account object or
    [null], then whatever the match-list and match endpoints answer, a
    profile request sends at most seven requests (the account, the match
    list and five details), and a profile it returns has a null rank,
    carries the account the lookup returned, and has statistics over at
    most five matches. *)
Theorem getPlayerProfile_bounds `{Host} (this : RiotAPIService)
    gameName tagLine region platformRegion w r w' :
  (forall d w1,
     getAccountByRiotId this gameName tagLine region w = (Ok d, w1) ->
     d = DNull \/ exists a, d = DAccount a) ->
  getPlayerProfile this gameName tagLine region platformRegion w = (r, w') ->
  (length (requests w') <= length (requests w) + 7)%nat /\
  (forall p, r = Ok p ->
     rank p = None /\
     0 <= statistics_totalMatches (statistics p) <= 5 /\
     fst (getAccountByRiotId this gameName tagLine region w) = Ok (DAccount (account p))).
Proof.
  intros Hshape Hp.
  pose proof (makeRequest_requests_le this
                (accountByRiotIdUrl gameName tagLine region)
                (Some (accountByRiotIdKey gameName tagLine)) w) as Hr1.
  change (makeRequest this _ _ w)
    with (getAccountByRiotId this gameName tagLine region w) in Hr1.
  destruct (getAccountByRiotId this gameName tagLine region w) as [[dacc|e] w1] eqn:Hacc.
  2:{ rewrite (getPlayerProfile_no_account this _ _ _ platformRegion _ _ _ Hacc) in Hp.
      injection Hp as <- <-. cbn in Hr1. split; [lia|discriminate]. }
  destruct (Hshape dacc w1 eq_refl) as [-> | [a ->]].
  { rewrite (getPlayerProfile_null_account this _ _ _ platformRegion _ _ Hacc) in Hp.
    injection Hp as <- <-. cbn in Hr1. split; [lia|discriminate]. }
  pose proof (makeRequest_requests_le this (matchHistoryUrl (acc_puuid a) region)
                (Some (matchHistoryKey (acc_puuid a) 5)) w1) as Hr2.
  change (makeRequest this _ _ w1)
    with (getMatchHistory this (acc_puuid a) region 5 w1) in Hr2.
  cbn [snd] in Hr1.
  destruct (getMatchHistory this (acc_puuid a) region 5 w1) as [[d|e] w2] eqn:Hhist.
  2:{ pose proof (getPlayerProfile_fallback this _ _ _ platformRegion _ _ _ Hacc) as E.
      rewrite Hhist in E. rewrite (E I) in Hp. injection Hp as <- <-.
      cbn [snd] in *. split; [lia|]. intros p [= <-]. cbn. repeat split; lia. }
  cbn [snd] in Hr2.
  destruct (nonempty_history d) as [h|] eqn:Hne.
  2:{ pose proof (getPlayerProfile_fallback this _ _ _ platformRegion _ _ _ Hacc) as E.
      rewrite Hhist in E. rewrite (E Hne) in Hp. injection Hp as <- <-.
      cbn [snd] in *. split; [lia|]. intros p [= <-]. cbn. repeat split; lia. }
  destruct (settle_all (detail_fetches this w2 region (take 5 h)) w2) as [rs w3] eqn:Hset.
  pose proof (detail_fetches_requests this w2 region (List.map matchId (take 5 h)) w2) as Hr3.
  rewrite List.map_map in Hr3. fold (detail_fetches this w2 region (take 5 h)) in Hr3.
  rewrite Hset in Hr3. cbn [snd] in Hr3.
  pose proof (detail_requests_length w2 region (List.map matchId (take 5 h))) as Hr4.
  rewrite length_map, length_take in Hr4.
  assert (Hreq : (length (requests w3) <= length (requests w) + 7)%nat).
  { rewrite Hr3, length_app. lia. }
  pose proof (getPlayerProfile_unfold this _ _ _ platformRegion _ _ _ _ _ _ _ _
                Hacc Hhist Hne Hset) as E.
  rewrite E in Hp.
  assert (Hlen : (length (fetched_bodies rs) <= 5)%nat).
  { unfold fetched_bodies.
    etransitivity; [apply List.filter_length_le|].
    rewrite length_map.
    pose proof (settle_all_length (detail_fetches this w2 region (take 5 h)) w2) as L.
    rewrite Hset in L. cbn in L. rewrite L. unfold detail_fetches.
    rewrite length_map, length_take. lia. }
  destruct (fetched_bodies rs) as [|b bs] eqn:Hb.
  - injection Hp as <- <-. split; [exact Hreq|].
    intros p [= <-]. cbn. repeat split; lia.
  - destruct (as_matches (b :: bs)) as [ms|e] eqn:Hms.
    + pose proof (as_matches_length _ _ Hms) as L.
      injection Hp as <- <-. split; [exact Hreq|].
      intros p [= <-]. cbn [rank account statistics statistics_totalMatches].
      split; [reflexivity|]. split; [|reflexivity].
      unfold calculatePlayerStats; cbn [totalMatches]. lia.
    + injection Hp as <- <-. split; [exact Hreq|discriminate].
Qed.

Lemma getPlayerProfile_bounds_witness :
  let r := @getPlayerProfile Fixture.host Sample.service "Lou" "EUW" "europe" "eu"
             Sample.start in
  length (requests (snd r)) = 7%nat /\
  exists p, fst r = Ok p /\ statistics_totalMatches (statistics p) = 4 /\ rank p = None.
Proof.
  intros r.
  destruct (getPlayerProfile_bounds (H:=Fixture.host) Sample.service
              "Lou" "EUW" "europe" "eu" Sample.start (fst r) (snd r))
    as [_ Hp].
  - intros d w1. vm_compute. intros [= <- _]. right. eexists. reflexivity.
  - symmetry. apply surjective_pairing.
  - split; [vm_compute; reflexivity|].
    destruct (fst r) as [p|e] eqn:E; [|vm_compute in E; discriminate].
    exists p. destruct (Hp p eq_refl) as (Hrank & _ & _).
    split; [reflexivity|]. split; [|exact Hrank].
    assert (Hs : statistics_totalMatches
                   (match fst r with Ok p => statistics p | Err _ => Literal zeroStats end)
                 = 4) by (vm_compute; reflexivity).
    rewrite E in Hs. exact Hs.
Defined.

(** ** What the fan-out leaves in the cache *)

Section FanOutCache.
Context `{Host}.
Variable this : RiotAPIService.

Lemma getMatchDetailsAt_now issued mid region w :
  now (snd (getMatchDetailsAt this issued mid region w)) = now w.
Proof.
  unfold getMatchDetailsAt, makeRequestAt.
  rewrite truthy_key_nonempty by discriminate.
  destruct (cache_get _ issued) as [d|]; [destruct (truthy d)|]; cbn;
    try reflexivity; destruct (http_get _ _ _); reflexivity.
Qed.

(** The cache after one detail fetch. *)
Lemma getMatchDetailsAt_cache issued mid region w :
  cache (snd (getMatchDetailsAt this issued mid region w)) =
  if served ("match:" +:+ mid) issued then cache w
  else match http_get (matchDetailsUrl mid region) (apiKey this) (now w) with
       | Ok d => <["match:" +:+ mid := (d, (now w + stdTTL * 1000)%N)]> (cache w)
       | Err _ => cache w
       end.
Proof.
  unfold getMatchDetailsAt, makeRequestAt, served.
  rewrite truthy_key_nonempty by discriminate.
  destruct (cache_get _ issued) as [d|]; [destruct (truthy d)|]; cbn;
    try reflexivity; destruct (http_get _ _ _); reflexivity.
Qed.

Lemma settle_all_now issued region mids : forall w,
  now (snd (settle_all
              (List.map (fun mid => getMatchDetailsAt this issued mid region) mids) w))
  = now w.
Proof.
  induction mids as [|mid mids IH]; intros w; [reflexivity|].
  cbn [List.map]. rewrite settle_all_cons. cbn [snd].
  rewrite IH. apply getMatchDetailsAt_now.
Qed.

(** The entry of one match id after a fan-out. *)
Lemma settle_all_cache issued region m0 mids : forall w,
  cache (snd (settle_all
                (List.map (fun mid => getMatchDetailsAt this issued mid region) mids) w))
    !! ("match:" +:+ m0) =
  if bool_decide (m0 ∈ mids) && negb (served ("match:" +:+ m0) issued) then
    match http_get (matchDetailsUrl m0 region) (apiKey this) (now w) with
    | Ok d => Some (d, (now w + stdTTL * 1000)%N)
    | Err _ => cache w !! ("match:" +:+ m0)
    end
  else cache w !! ("match:" +:+ m0).
Proof.
  induction mids as [|mid mids IH]; intros w.
  - reflexivity.
  - cbn [List.map]. rewrite settle_all_cons. cbn [snd].
    rewrite IH, getMatchDetailsAt_now, getMatchDetailsAt_cache.
    destruct (decide (mid = m0)) as [->|Hne].
    + rewrite (bool_decide_eq_true_2 (m0 ∈ m0 :: mids)) by (left).
      destruct (served ("match:" +:+ m0) issued); cbn [negb andb].
      * rewrite andb_false_r. reflexivity.
      * rewrite andb_true_r.
        destruct (http_get (matchDetailsUrl m0 region) (apiKey this) (now w)) as [d|e].
        -- rewrite lookup_insert_eq. destruct (bool_decide (m0 ∈ mids)); reflexivity.
        -- destruct (bool_decide (m0 ∈ mids)); reflexivity.
    + assert (Hk : "match:" +:+ mid <> "match:" +:+ m0).
      { intros E. apply append_inv_head in E. contradiction. }
      assert (Hin : bool_decide (m0 ∈ mid :: mids) = bool_decide (m0 ∈ mids)).
      { apply bool_decide_ext. rewrite elem_of_cons. intuition congruence. }
      rewrite Hin.
      assert (Hc : (if served ("match:" +:+ mid) issued then cache w
                    else match http_get (matchDetailsUrl mid region) (apiKey this) (now w) with
                         | Ok d => <["match:" +:+ mid := (d, (now w + stdTTL * 1000)%N)]> (cache w)
                         | Err _ => cache w
                         end) !! ("match:" +:+ m0) = cache w !! ("match:" +:+ m0)).
      { destruct (served ("match:" +:+ mid) issued); [reflexivity|].
        destruct (http_get (matchDetailsUrl mid region) (apiKey this) (now w));
          [|reflexivity].
        apply lookup_insert_ne. exact Hk. }
      rewrite Hc. reflexivity.
Qed.

Lemma served_later key w t :
  served key w = false -> (now w <= t)%N -> served key (at_time t w) = false.
Proof.
  unfold served, cache_get. cbn [cache now at_time].
  destruct (cache w !! key) as [[d ex]|]; [|reflexivity].
  destruct (N.ltb_spec ex (now w)); destruct (N.ltb_spec ex t); intros Hs Ht;
    try reflexivity; try assumption. lia.
Qed.
End FanOutCache.

(** X20: what a fan-out leaves behind for the next one.  Of the entries
    it requested, those that came back with a non-null body are answered
    from the cache for the next 300 s, also when the call as a whole was
    rejected; those that failed or came back null are not, and will be
    requested again. *)
Theorem fan_out_caches_successes `{Host} (this : RiotAPIService)
    region (mids : list string) w rs w' mid t :
  settle_all (List.map (fun mid => getMatchDetailsAt this w mid region) mids) w
    = (rs, w') ->
  mid ∈ mids ->
  served ("match:" +:+ mid) w = false ->
  (now w <= t <= now w + stdTTL * 1000)%N ->
  served ("match:" +:+ mid) (at_time t w') =
  match http_get (matchDetailsUrl mid region) (apiKey this) (now w) with
  | Ok d => truthy d
  | Err _ => false
  end.
Proof.
  intros Hset Hin Hs Ht.
  pose proof (settle_all_cache this w region mid mids w) as Hc.
  pose proof (settle_all_now this w region mids w) as Hn.
  rewrite Hset in Hc, Hn. cbn [snd] in Hc, Hn.
  rewrite (bool_decide_eq_true_2 _ Hin), Hs in Hc. cbn [negb andb] in Hc.
  destruct (http_get (matchDetailsUrl mid region) (apiKey this) (now w)) as [d|e].
  - unfold served, cache_get. cbn [cache now at_time]. rewrite Hc.
    destruct (N.ltb_spec (now w + stdTTL * 1000) t); [lia|reflexivity].
  - assert (Hs' : served ("match:" +:+ mid) (at_time t w) = false)
      by (apply served_later; [exact Hs|lia]).
    unfold served, cache_get in *. cbn [cache now at_time] in *.
    rewrite Hc. exact Hs'.
Qed.

Lemma fan_out_caches_successes_witness :
  let mids := ["m1"; "m2"; "m4"] in
  let w' := snd (settle_all
                   (List.map (fun mid => @getMatchDetailsAt Sample.host Sample.service
                                           Sample.start mid "europe") mids)
                   Sample.start) in
  served "match:m1" (at_time 200000 w') = true /\
  served "match:m2" (at_time 200000 w') = false /\
  detail_requests (at_time 200000 w') "europe" mids
    = [Sample.europe +:+ "/val/match/v1/matches/m2"].
Proof.
  intros mids w'.
  assert (Hset : settle_all
                   (List.map (fun mid => @getMatchDetailsAt Sample.host Sample.service
                                           Sample.start mid "europe") mids)
                   Sample.start
                 = (fst (settle_all
                           (List.map (fun mid => @getMatchDetailsAt Sample.host
                                        Sample.service Sample.start mid "europe") mids)
                           Sample.start), w'))
    by (symmetry; apply surjective_pairing).
  assert (Ht : (now Sample.start <= 200000 <= now Sample.start + stdTTL * 1000)%N)
    by (vm_compute; split; discriminate).
  pose proof (fan_out_caches_successes (H:=Sample.host) Sample.service "europe"
                mids Sample.start _ w' "m1" 200000%N Hset
                ltac:(left) eq_refl Ht) as H1.
  pose proof (fan_out_caches_successes (H:=Sample.host) Sample.service "europe"
                mids Sample.start _ w' "m2" 200000%N Hset
                ltac:(right; left) eq_refl Ht) as H2.
  split; [exact H1|]. split; [exact H2|].
  vm_compute. reflexivity.
Defined.

(** ** The breakdowns and the totals *)

Lemma breakdown_sum_empty {A} (f : A -> Z) : breakdown_sum f (∅ : gmap string A) = 0.
Proof. unfold breakdown_sum. apply map_fold_empty. Qed.

Lemma breakdown_sum_insert_new {A} (f : A -> Z) (m : gmap string A) k a :
  m !! k = None -> breakdown_sum f (<[k := a]> m) = f a + breakdown_sum f m.
Proof.
  intros Hk. unfold breakdown_sum.
  rewrite map_fold_insert_L; [reflexivity| |exact Hk].
  intros; lia.
Qed.

(** Writing an entry changes the sum by the difference of the entries. *)
Lemma breakdown_sum_insert {A} (f : A -> Z) (m : gmap string A) k a :
  breakdown_sum f (<[k := a]> m)
    = breakdown_sum f m + f a - from_option f 0 (m !! k).
Proof.
  destruct (m !! k) as [x|] eqn:Hk; cbn [from_option].
  - rewrite <- insert_delete_eq.
    rewrite breakdown_sum_insert_new by apply lookup_delete_eq.
    assert (E : breakdown_sum f m = f x + breakdown_sum f (delete k m)).
    { unfold breakdown_sum.
      exact (map_fold_delete_L (fun _ a acc => f a + acc) 0 k x m
               ltac:(intros; cbv beta; lia) Hk). }
    lia.
  - rewrite breakdown_sum_insert_new by exact Hk. lia.
Qed.

Lemma subject_won_in id m :
  subject_value id won_in m = b2z (has_outcome id Win m).
Proof.
  unfold subject_value, won_in, has_outcome, outcome_of.
  destruct (find_player m id) as [p|]; cbn; [|reflexivity].
  destruct (team_of m p) as [t|]; cbn; [|reflexivity].
  unfold classify. destruct (has_won t); [reflexivity|].
  destruct (rounds_equal (teams m)); reflexivity.
Qed.

Lemma subject_one id m : subject_value id one m = b2z (found id m).
Proof.
  unfold subject_value, one, found. destruct (find_player m id); reflexivity.
Qed.

Lemma sum_over_b2z P ms : sum_over (fun m => b2z (P m)) ms = count_matches P ms.
Proof.
  induction ms as [|m ms IH]; [reflexivity|].
  rewrite count_matches_cons, <- IH. reflexivity.
Qed.

Ltac agents_step :=
  let c := fresh "c" in let m := fresh "m" in
  intros c m; unfold fold_match, subject_value;
  destruct (find_player m _) as [?p|]; cbn [c_agents c_maps from_option];
  [ rewrite breakdown_sum_insert; cbn;
    match goal with
    | |- context [?mp !! ?k] => destruct (mp !! k); cbn
    end; unfold one, won_in, kills_in, deaths_in, assists_in,
                rounds_won_in, rounds_lost_in; lia
  | lia ].

Lemma fold_matches_agents_sums id ms :
  let c := fold_matches id ms in
  breakdown_sum ag_matches (c_agents c) = sum_over (subject_value id one) ms /\
  breakdown_sum ag_wins (c_agents c) = sum_over (subject_value id won_in) ms /\
  breakdown_sum ag_kills (c_agents c) = sum_over (subject_value id kills_in) ms /\
  breakdown_sum ag_deaths (c_agents c) = sum_over (subject_value id deaths_in) ms /\
  breakdown_sum ag_assists (c_agents c) = sum_over (subject_value id assists_in) ms.
Proof.
  unfold fold_matches.
  repeat split;
    match goal with
    | |- breakdown_sum ?f _ = sum_over ?d ms =>
        rewrite (fold_left_linear (fun c => breakdown_sum f (c_agents c)) d id);
        [cbn [initial c_agents]; rewrite breakdown_sum_empty; reflexivity
        |agents_step]
    end.
Qed.

Lemma fold_matches_maps_sums id ms :
  let c := fold_matches id ms in
  breakdown_sum mc_matches (c_maps c) = sum_over (subject_value id one) ms /\
  breakdown_sum mc_wins (c_maps c) = sum_over (subject_value id won_in) ms /\
  breakdown_sum mc_kills (c_maps c) = sum_over (subject_value id kills_in) ms /\
  breakdown_sum mc_deaths (c_maps c) = sum_over (subject_value id deaths_in) ms /\
  breakdown_sum mc_roundsWon (c_maps c) = sum_over (subject_value id rounds_won_in) ms /\
  breakdown_sum mc_roundsLost (c_maps c) = sum_over (subject_value id rounds_lost_in) ms.
Proof.
  unfold fold_matches.
  repeat split;
    match goal with
    | |- breakdown_sum ?f _ = sum_over ?d ms =>
        rewrite (fold_left_linear (fun c => breakdown_sum f (c_maps c)) d id);
        [cbn [initial c_maps]; rewrite breakdown_sum_empty; reflexivity
        |agents_step]
    end.
Qed.

(** X21: the breakdowns partition the totals.  Summed over the agents,
    and likewise over the maps, the per-entry matches, wins, kills and
    deaths give the number of matches with the subject, [wins],
    [totalKills] and [totalDeaths]; the assists of the agents give
    [totalAssists], the rounds of the maps [roundsWon] and [roundsLost]. *)
Theorem breakdowns_partition_totals tsl ms id :
  let s := calculatePlayerStats tsl ms id in
  breakdown_sum ag_matches (agents s) = count_matches (found id) ms /\
  breakdown_sum ag_wins (agents s) = wins s /\
  breakdown_sum ag_kills (agents s) = totalKills s /\
  breakdown_sum ag_deaths (agents s) = totalDeaths s /\
  breakdown_sum ag_assists (agents s) = totalAssists s /\
  breakdown_sum (fun e => mc_matches (mp_counters e)) (maps s)
    = count_matches (found id) ms /\
  breakdown_sum (fun e => mc_wins (mp_counters e)) (maps s) = wins s /\
  breakdown_sum (fun e => mc_kills (mp_counters e)) (maps s) = totalKills s /\
  breakdown_sum (fun e => mc_deaths (mp_counters e)) (maps s) = totalDeaths s /\
  breakdown_sum (fun e => mc_roundsWon (mp_counters e)) (maps s) = roundsWon s /\
  breakdown_sum (fun e => mc_roundsLost (mp_counters e)) (maps s) = roundsLost s.
Proof.
  intros s.
  destruct (fold_matches_agents_sums id ms) as (A1 & A2 & A3 & A4 & A5).
  destruct (fold_matches_maps_sums id ms) as (M1 & M2 & M3 & M4 & M5 & M6).
  destruct (fold_matches_totals id ms) as (T1 & T2 & T3 & _ & T5 & T6 & _).
  destruct (calculatePlayerStats_counts tsl ms id) as (Hw & _ & _).
  cbv zeta in *.
  assert (Hone : sum_over (subject_value id one) ms = count_matches (found id) ms).
  { rewrite (sum_over_ext _ (fun m => b2z (found id m))) by apply subject_one.
    apply sum_over_b2z. }
  assert (Hwon : sum_over (subject_value id won_in) ms = wins s).
  { rewrite (sum_over_ext _ (fun m => b2z (has_outcome id Win m)))
      by apply subject_won_in.
    rewrite sum_over_b2z. symmetry. exact Hw. }
  subst s. unfold calculatePlayerStats in *.
  cbn [agents maps wins totalKills totalDeaths totalAssists roundsWon roundsLost] in *.
  unfold breakdown_sum in *. rewrite !map_fold_fmap.
  repeat split.
  - rewrite <- Hone. exact A1.
  - rewrite <- Hwon. exact A2.
  - rewrite T1. exact A3.
  - rewrite T2. exact A4.
  - rewrite T3. exact A5.
  - rewrite <- Hone. exact M1.
  - rewrite <- Hwon. exact M2.
  - rewrite T1. exact M3.
  - rewrite T2. exact M4.
  - rewrite T5. exact M5.
  - rewrite T6. exact M6.
Qed.
